(** * Cineville visits-per-member report: the pipeline of [backend/logic.py]

    A shallow embedding of the loaders, the join-and-validate step, the
    aggregator and the report writer, followed by the properties the
    specification states about them.

    Conventions of the embedding.
    - A Python [str] is a [string]; a character is read as the code point
      U+0000..U+00FF it denotes, so that [String.compare] is Python's
      code-point order on these strings.
    - A Python [dict] is the list of its items in insertion order.
    - A Python [int] is a [Z].
    - [logging.warning] appends a record to a log that is threaded through.
    - The only exception the modelled code can raise is [KeyError], from
      [d[k]] on a plain dict; functions containing such a lookup return in
      the [Res] monad. *)

From Stdlib Require Import List String Ascii ZArith NArith Lia Bool.
From Stdlib Require Import Permutation Sorted DecimalString.
Import ListNotations.

Local Open Scope string_scope.
Local Open Scope Z_scope.

(** ** Python primitives *)

Module Py.

(** *** Strings *)

(** [bool(s)] for a string: the empty string is falsy. *)
Definition truthy (s : string) : bool :=
  match s with EmptyString => false | String _ _ => true end.

(** [x or ""] for [x : Optional[str]]. *)
Definition or_empty (x : option string) : string :=
  match x with
  | Some s => if truthy s then s else ""
  | None => ""
  end.

(** [s or None] for a string [s]. *)
Definition or_None (s : string) : option string :=
  if truthy s then Some s else None.

(** [c.isspace()] on the code points below 256: TAB..CR, FS..US and space,
    NEL (U+0085) and NBSP (U+00A0). *)
Definition isspace (c : ascii) : bool :=
  let n := N_of_ascii c in
  ((9 <=? n) && (n <=? 13) || (28 <=? n) && (n <=? 32)
   || (n =? 133) || (n =? 160))%N.

Fixpoint lstrip (s : string) : string :=
  match s with
  | EmptyString => EmptyString
  | String c s' => if isspace c then lstrip s' else s
  end.

Fixpoint rstrip (s : string) : string :=
  match s with
  | EmptyString => EmptyString
  | String c s' =>
      match rstrip s' with
      | EmptyString => if isspace c then EmptyString else String c EmptyString
      | r => String c r
      end
  end.

(** [s.strip()] *)
Definition strip (s : string) : string := rstrip (lstrip s).

(** A string made of whitespace only (the empty string included). *)
Fixpoint blank (s : string) : bool :=
  match s with
  | EmptyString => true
  | String c s' => isspace c && blank s'
  end.

(** [sep.join(l)] *)
Fixpoint join (sep : string) (l : list string) : string :=
  match l with
  | [] => ""
  | [x] => x
  | x :: (_ :: _) as l' => x ++ sep ++ join sep l'
  end.

(** [str(n)] for an int. *)
Definition str_of_int (n : Z) : string := NilZero.string_of_int (Z.to_int n).

(** *** Orders: [<] on str, on int and on tuples *)

Definition str_lt (a b : string) : bool :=
  match String.compare a b with Lt => true | _ => false end.

(** [(a1, b1) < (a2, b2)]: the first components decide unless they are
    equal. *)
Definition pair_lt {A B : Type} (eqa : A -> A -> bool)
    (lta : A -> A -> bool) (ltb : B -> B -> bool) (x y : A * B) : bool :=
  if eqa (fst x) (fst y) then ltb (snd x) (snd y) else lta (fst x) (fst y).

(** *** [sorted] and slicing *)

Section Sorted.
Context {A K : Type} (lt : K -> K -> bool) (key : A -> K).

(** [x] came before every element of [l] in the input, so it stays before
    the elements with an equal key: the sort is stable, as Python's. *)
Fixpoint insert (x : A) (l : list A) : list A :=
  match l with
  | [] => [x]
  | y :: l' => if lt (key y) (key x) then y :: insert x l' else x :: l
  end.

(** [sorted(l, key=key)] *)
Fixpoint sorted (l : list A) : list A :=
  match l with
  | [] => []
  | x :: l' => insert x (sorted l')
  end.
End Sorted.

(** [l[:n]]: a negative [n] counts from the end. *)
Definition slice_to {A : Type} (n : Z) (l : list A) : list A :=
  if n <? 0 then firstn (Z.to_nat (Z.of_nat (List.length l) + n)) l
  else firstn (Z.to_nat n) l.

(** *** Dictionaries *)

Class EqKey (K : Type) := {
  keyb : K -> K -> bool;
  keyb_spec : forall x y, reflect (x = y) (keyb x y)
}.

Section Dict.
Context {K V : Type} `{EqKey K}.

Definition dict := list (K * V).

(** [d.get(k)] *)
Fixpoint get (d : dict) (k : K) : option V :=
  match d with
  | [] => None
  | (k', v) :: d' => if keyb k' k then Some v else get d' k
  end.

(** [k in d] *)
Definition mem (d : dict) (k : K) : bool :=
  match get d k with Some _ => true | None => false end.

(** [d[k] = v]: an existing key keeps its position, a new key goes last. *)
Fixpoint set (d : dict) (k : K) (v : V) : dict :=
  match d with
  | [] => [(k, v)]
  | (k', v') :: d' =>
      if keyb k' k then (k', v) :: d' else (k', v') :: set d' k v
  end.

(** [list(d)], the keys in insertion order. *)
Definition keys (d : dict) : list K := map fst d.

(** [d[k]] on a [defaultdict(factory)]: a missing key is first inserted
    with the default. The result is the dict after the access and the
    value found. *)
Definition dd_getitem (default : V) (d : dict) (k : K) : dict * V :=
  match get d k with
  | Some v => (d, v)
  | None => (set d k default, default)
  end.

(** A dict holds each key once. *)
Definition wf (d : dict) : Prop := NoDup (keys d).
End Dict.

Arguments dict : clear implicits.

End Py.

#[export] Instance string_EqKey : Py.EqKey string :=
  {| Py.keyb := String.eqb; Py.keyb_spec := String.eqb_spec |}.

Lemma pair_keyb_spec {A B : Type} `{Py.EqKey A} `{Py.EqKey B} (x y : A * B) :
  reflect (x = y)
    (Py.keyb (fst x) (fst y) && Py.keyb (snd x) (snd y)).
Proof.
  destruct x as [a b], y as [a' b']; simpl.
  destruct (Py.keyb_spec a a'), (Py.keyb_spec b b'); simpl;
    constructor; congruence.
Qed.

#[export] Instance pair_EqKey {A B : Type} `{Py.EqKey A} `{Py.EqKey B} :
  Py.EqKey (A * B) :=
  {| Py.keyb := fun x y =>
       Py.keyb (fst x) (fst y) && Py.keyb (snd x) (snd y);
     Py.keyb_spec := pair_keyb_spec |}.

(** ** Exceptions *)

Inductive exn : Type := KeyError.

Inductive Res (A : Type) : Type :=
| Ok (a : A)
| Raise (e : exn).
Arguments Ok {A} a.
Arguments Raise {A} e.

Definition bind {A B : Type} (m : Res A) (f : A -> Res B) : Res B :=
  match m with
  | Ok a => f a
  | Raise e => Raise e
  end.

Notation "x <- m ;; k" := (bind m (fun x => k))
  (at level 61, m at next level, right associativity).

(** [d[k]] on a plain dict. *)
Definition getitem {K V : Type} `{Py.EqKey K} (d : Py.dict K V) (k : K)
  : Res V :=
  match Py.get d k with
  | Some v => Ok v
  | None => Raise KeyError
  end.

(** ** Data models *)

(** A row yielded by [csv.DictReader]: column name to field, [None] for a
    column the line does not reach. *)
Definition Row : Type := Py.dict string (option string).

(** [row.get(col)]: [None] when the column is missing or holds [None]. *)
Definition row_get (row : Row) (col : string) : option string :=
  match Py.get row col with
  | Some (Some s) => Some s
  | _ => None
  end.

Record Visit : Type := mkVisit {
  visit_id : string;
  barcode : string;
  reservation_id : option string
}.

(** The calls of [logging.warning], by message. *)
Inductive LogRecord : Type :=
| InvalidMemberRow (file : string) (line : Z) (row : Row)
| DuplicateBarcode (file : string) (line : Z)
    (barcode existing_member new_member : string)
| InvalidVisitRow (file : string) (line : Z) (row : Row)
| MissingBarcode (visit_id : string)
| UnknownBarcode (visit_id barcode : string).

Definition Log : Type := list LogRecord.

(** [barcode -> member_id] *)
Definition Members : Type := Py.dict string string.

(** [(member_id, barcode) -> [visit_id, ...]] *)
Definition GroupKey : Type := (string * string)%type.
Definition GroupedVisits : Type := Py.dict GroupKey (list string).

Record TopMember : Type := mkTopMember {
  member_id : string;
  visit_count : Z
}.

Record Summary : Type := mkSummary {
  generated_at : string;
  total_valid_visits : Z;
  total_walk_ins : Z;
  top_members : list TopMember
}.

(** ** Core functions *)

(** The loop of [load_members] over the rows of the reader, [line_no]
    being the number [enumerate] attaches to the next row. *)
Fixpoint load_members_loop (name : string) (line_no : Z) (rows : list Row)
    (barcode_to_member : Members) (log : Log) : Res (Members * Log) :=
  match rows with
  | [] => Ok (barcode_to_member, log)
  | row :: rows' =>
      let member_id := Py.strip (Py.or_empty (row_get row "member_id")) in
      let barcode := Py.strip (Py.or_empty (row_get row "barcode")) in
      if negb (Py.truthy member_id) || negb (Py.truthy barcode) then
        load_members_loop name (line_no + 1) rows' barcode_to_member
          (log ++ [InvalidMemberRow name line_no row])%list
      else if Py.mem barcode_to_member barcode then
        existing <- getitem barcode_to_member barcode ;;
        load_members_loop name (line_no + 1) rows' barcode_to_member
          (log ++ [DuplicateBarcode name line_no barcode existing member_id])%list
      else
        load_members_loop name (line_no + 1) rows'
          (Py.set barcode_to_member barcode member_id) log
  end.

(** [load_members] on a file called [name] whose reader yields [rows]:
    the mapping returned and the warnings logged. *)
Definition load_members_run (name : string) (rows : list Row)
  : Res (Members * Log) :=
  load_members_loop name 2 rows [] [].

Definition load_members (name : string) (rows : list Row) : Res Members :=
  r <- load_members_run name rows ;; Ok (fst r).

Fixpoint load_visits_loop (name : string) (line_no : Z) (rows : list Row)
    (visits : list Visit) (log : Log) : list Visit * Log :=
  match rows with
  | [] => (visits, log)
  | row :: rows' =>
      let visit_id := Py.strip (Py.or_empty (row_get row "visit_id")) in
      let barcode := Py.strip (Py.or_empty (row_get row "barcode")) in
      let reservation_id :=
        Py.or_None (Py.strip (Py.or_empty (row_get row "reservation_id"))) in
      if negb (Py.truthy visit_id) then
        load_visits_loop name (line_no + 1) rows' visits
          (log ++ [InvalidVisitRow name line_no row])%list
      else
        load_visits_loop name (line_no + 1) rows'
          (visits ++ [mkVisit visit_id barcode reservation_id])%list log
  end.

Definition load_visits_run (name : string) (rows : list Row)
  : list Visit * Log :=
  load_visits_loop name 2 rows [] [].

Definition load_visits (name : string) (rows : list Row) : list Visit :=
  fst (load_visits_run name rows).

(** [bool(x)] for [x : Optional[str]]. *)
Definition truthy_opt (x : option string) : bool :=
  match x with
  | Some s => Py.truthy s
  | None => false
  end.

(** [grouped[key].append(x)] on the [defaultdict(list)]. *)
Definition grouped_append (grouped : GroupedVisits) (key : GroupKey)
    (x : string) : GroupedVisits :=
  let '(grouped', l) := Py.dd_getitem [] grouped key in
  Py.set grouped' key (l ++ [x])%list.

(** The state of the loop of [validate_and_group_visits]. *)
Record VState : Type := mkVState {
  grouped : GroupedVisits;
  walk_in_count : Z;
  vlog : Log
}.

(** One iteration of the loop, on the visit [v]. *)
Definition validate_step (members : Members) (st : VState) (v : Visit)
  : VState :=
  if negb (Py.truthy (barcode v)) then
    mkVState (grouped st) (walk_in_count st)
      (vlog st ++ [MissingBarcode (visit_id v)])%list
  else
    let member_id := Py.get members (barcode v) in
    match member_id with
    | Some m =>
        if negb (Py.truthy m) then
          mkVState (grouped st) (walk_in_count st)
            (vlog st ++ [UnknownBarcode (visit_id v) (barcode v)])%list
        else
          let grouped' := grouped_append (grouped st) (m, barcode v)
                            (visit_id v) in
          match reservation_id v with
          | None => mkVState grouped' (walk_in_count st + 1) (vlog st)
          | Some _ => mkVState grouped' (walk_in_count st) (vlog st)
          end
    | None =>
        mkVState (grouped st) (walk_in_count st)
          (vlog st ++ [UnknownBarcode (visit_id v) (barcode v)])%list
    end.

Definition validate_and_group_visits_run (members : Members)
    (visits : list Visit) : VState :=
  fold_left (validate_step members) visits (mkVState [] 0 []).

Definition validate_and_group_visits (members : Members)
    (visits : list Visit) : GroupedVisits * Z :=
  let st := validate_and_group_visits_run members visits in
  (grouped st, walk_in_count st).

(** [<] on the keys of the grouped data, pairs of strings. *)
Definition group_key_lt : GroupKey -> GroupKey -> bool :=
  Py.pair_lt String.eqb Py.str_lt Py.str_lt.

(** One row of the report. *)
Definition output_line (member_id barcode : string)
    (visit_ids : list string) : string :=
  let visits_repr := "[" ++ Py.join ", " visit_ids ++ "]" in
  member_id ++ "," ++ barcode ++ "," ++ visits_repr ++ String "010" "".

Fixpoint write_output_loop (grouped_data : GroupedVisits)
    (todo : list GroupKey) (f : string) : Res string :=
  match todo with
  | [] => Ok f
  | (member_id, barcode) :: todo' =>
      visit_ids <- getitem grouped_data (member_id, barcode) ;;
      write_output_loop grouped_data todo'
        (f ++ output_line member_id barcode visit_ids)
  end.

(** [write_output]: what the file holds once it is closed. *)
Definition write_output (grouped_data : GroupedVisits) : Res string :=
  let f := "member_id,barcode,visits" ++ String "010" "" in
  write_output_loop grouped_data
    (Py.sorted group_key_lt (fun k => k) (Py.keys grouped_data)) f.

(** [write_output_csv] of [io.py]: what it writes to the file. *)
Fixpoint write_output_csv (rows : list (string * string * string))
  : string :=
  match rows with
  | [] => ""
  | (member_id, barcode, visits) :: rows' =>
      (member_id ++ "," ++ barcode ++ "," ++ visits ++ String "010" "")
      ++ write_output_csv rows'
  end.

(** [visits_per_member[member_id] += count] on the [defaultdict(int)]. *)
Definition add_visits (visits_per_member : Py.dict string Z)
    (member_id : string) (count : Z) : Py.dict string Z :=
  let '(d, old) := Py.dd_getitem 0 visits_per_member member_id in
  Py.set d member_id (old + count).

(** The sort key [(-item[1], item[0])] and [<] on such keys. *)
Definition rank_key (item : string * Z) : Z * string :=
  (- snd item, fst item).

Definition rank_key_lt : Z * string -> Z * string -> bool :=
  Py.pair_lt Z.eqb Z.ltb Py.str_lt.

Definition len (l : list string) : Z := Z.of_nat (List.length l).

(** The lines [print_top_members] prints around and for the ranking. *)
Definition rule_line : string :=
  "--------------------------------------------".

Definition top_header (top_n : Z) : string :=
  "Top " ++ Py.str_of_int top_n ++ " members by visits:".

Definition ranking_line (item : string * Z) : string :=
  fst item ++ ", " ++ Py.str_of_int (snd item).

(** [print_top_members]: the lines printed. *)
Definition print_top_members (grouped_data : GroupedVisits) (top_n : Z)
  : list string :=
  let visits_per_member :=
    fold_left (fun d item => add_visits d (fst (fst item)) (len (snd item)))
      grouped_data [] in
  let ranking :=
    Py.slice_to top_n (Py.sorted rank_key_lt rank_key visits_per_member) in
  ([rule_line; top_header top_n] ++ map ranking_line ranking
   ++ [rule_line])%list.

(** The loop of [build_summary]: the per-member totals and the grand
    total. *)
Definition summary_step (st : Py.dict string Z * Z)
    (item : GroupKey * list string) : Py.dict string Z * Z :=
  let count := len (snd item) in
  (add_visits (fst st) (fst (fst item)) count, snd st + count).

(** [build_summary], [now] being the timestamp taken from the clock. *)
Definition build_summary (now : string) (grouped_data : GroupedVisits)
    (walk_in_count : Z) (top_n : Z) : Summary :=
  let '(visits_per_member, total_valid_visits) :=
    fold_left summary_step grouped_data ([], 0) in
  let top_members :=
    Py.slice_to top_n (Py.sorted rank_key_lt rank_key visits_per_member) in
  mkSummary now total_valid_visits walk_in_count
    (map (fun item => mkTopMember (fst item) (snd item)) top_members).

(** ** Running the code on the scenarios of the tests *)

Definition row2 (c1 v1 c2 v2 : string) : Row :=
  [(c1, Some v1); (c2, Some v2)].

Definition row3 (c1 v1 c2 v2 c3 v3 : string) : Row :=
  [(c1, Some v1); (c2, Some v2); (c3, Some v3)].

Example test_load_members_dedupes_and_skips_invalid :
  load_members "members.csv"
    [row2 "member_id" "m1" "barcode" "b1";
     row2 "member_id" "" "barcode" "b2";
     row2 "member_id" "m2" "barcode" "";
     row2 "member_id" "m3" "barcode" "b1"]
  = Ok [("b1", "m1")].
Proof. reflexivity. Qed.

Example test_load_visits_skips_missing_visit_id :
  load_visits "visits.csv"
    [row3 "visit_id" "v1" "barcode" "b1" "reservation_id" "";
     row3 "visit_id" "" "barcode" "b2" "reservation_id" "r2"]
  = [mkVisit "v1" "b1" None].
Proof. reflexivity. Qed.

Example test_validate_and_group_visits_and_walkins :
  validate_and_group_visits [("b1", "m1")]
    [mkVisit "v1" "b1" None; mkVisit "v2" "" (Some "r2");
     mkVisit "v3" "b2" (Some "r3")]
  = ([(("m1", "b1"), ["v1"])], 1).
Proof. reflexivity. Qed.

Example test_write_output_format :
  write_output [(("m1", "b1"), ["v1"; "v2"])]
  = Ok ("member_id,barcode,visits" ++ String "010" ""
        ++ "m1,b1,[v1, v2]" ++ String "010" "").
Proof. reflexivity. Qed.

Example test_build_summary :
  build_summary "t" [(("m1", "b1"), ["v1"; "v2"]); (("m2", "b2"), ["v3"])]
    2 5
  = mkSummary "t" 3 2 [mkTopMember "m1" 2; mkTopMember "m2" 1].
Proof. reflexivity. Qed.

Example test_print_top_members :
  print_top_members
    [(("m2", "b2"), ["v3"]); (("m1", "b1"), ["v1"]); (("m1", "b9"), ["v2"]);
     (("m0", "b0"), ["v4"])] 2
  = ["--------------------------------------------";
     "Top 2 members by visits:";
     "m1, 2"; "m0, 1";
     "--------------------------------------------"].
Proof. reflexivity. Qed.

(** ** Facts about dictionaries *)

Section DictFacts.
Context {K V : Type} `{Py.EqKey K}.
Implicit Types (d : Py.dict K V) (k : K) (v : V).

Lemma keyb_refl k : Py.keyb k k = true.
Proof. destruct (Py.keyb_spec k k); congruence. Qed.

Lemma keyb_neq k k' : k <> k' -> Py.keyb k k' = false.
Proof. destruct (Py.keyb_spec k k'); congruence. Qed.

Lemma get_set_same d k v : Py.get (Py.set d k v) k = Some v.
Proof.
  induction d as [|[k' v'] d IH]; simpl.
  - now rewrite keyb_refl.
  - destruct (Py.keyb k' k) eqn:E; simpl; now rewrite E.
Qed.

Lemma get_set_other d k k' v :
  k <> k' -> Py.get (Py.set d k v) k' = Py.get d k'.
Proof.
  intros Hne. induction d as [|[k0 v0] d IH]; simpl.
  - now rewrite keyb_neq.
  - destruct (Py.keyb_spec k0 k) as [->|Hk]; simpl.
    + now rewrite !keyb_neq.
    + now rewrite IH.
Qed.

Lemma set_set d k v1 v2 : Py.set (Py.set d k v1) k v2 = Py.set d k v2.
Proof.
  induction d as [|[k' v'] d IH]; simpl.
  - now rewrite keyb_refl.
  - destruct (Py.keyb k' k) eqn:E; simpl; rewrite E; congruence.
Qed.

Lemma get_None_notin d k : Py.get d k = None <-> ~ In k (Py.keys d).
Proof.
  induction d as [|[k' v'] d IH]; simpl.
  - tauto.
  - destruct (Py.keyb_spec k' k) as [->|Hk].
    + split; [discriminate | tauto].
    + rewrite IH. tauto.
Qed.

Lemma get_Some_In d k v : Py.get d k = Some v -> In (k, v) d.
Proof.
  induction d as [|[k' v'] d IH]; simpl; [discriminate|].
  destruct (Py.keyb_spec k' k) as [->|Hk].
  - intros [= ->]. now left.
  - auto.
Qed.

Lemma In_get d k v : Py.wf d -> In (k, v) d -> Py.get d k = Some v.
Proof.
  unfold Py.wf, Py.keys.
  induction d as [|[k' v'] d IH]; simpl; [tauto|].
  intros Hnd [[= -> ->]|Hin].
  - now rewrite keyb_refl.
  - inversion Hnd as [|? ? Hni Hnd']; subst.
    destruct (Py.keyb_spec k' k) as [->|Hk].
    + exfalso. apply Hni. now apply (in_map fst) in Hin.
    + auto.
Qed.

(** The keys after [d[k] = v]. *)
Lemma keys_set d k v :
  Py.keys (Py.set d k v)
  = if Py.mem d k then Py.keys d else (Py.keys d ++ [k])%list.
Proof.
  unfold Py.mem, Py.keys.
  induction d as [|[k' v'] d IH]; simpl; [reflexivity|].
  destruct (Py.keyb k' k) eqn:E; simpl; [reflexivity|].
  rewrite IH. now destruct (Py.get d k).
Qed.

Lemma wf_set d k v : Py.wf d -> Py.wf (Py.set d k v).
Proof.
  unfold Py.wf. intros Hnd. rewrite keys_set. unfold Py.mem.
  destruct (Py.get d k) eqn:E; [assumption|].
  apply get_None_notin in E.
  apply NoDup_rev in Hnd. rewrite <- (rev_involutive (_ ++ _)).
  apply NoDup_rev. rewrite rev_app_distr. simpl.
  constructor; [now rewrite <- in_rev | assumption].
Qed.

Lemma Forall_values_set (Q : V -> Prop) d k v :
  Forall (fun item => Q (snd item)) d -> Q v ->
  Forall (fun item => Q (snd item)) (Py.set d k v).
Proof.
  intros Hd Hv. induction d as [|[k' v'] d IH]; simpl.
  - now constructor.
  - inversion Hd; subst. destruct (Py.keyb k' k); constructor; auto.
Qed.
End DictFacts.

(** ** The join and validation step *)

(** [sum(len(v) for v in grouped.values())] *)
Definition sum_lengths (g : GroupedVisits) : Z :=
  fold_right (fun item acc => len (snd item) + acc) 0 g.

(** The number of elements of [l] that satisfy [p]. *)
Definition count {A : Type} (p : A -> bool) (l : list A) : Z :=
  Z.of_nat (List.length (filter p l)).

(** The two barcode checks of [validate_and_group_visits], as the code
    makes them: [v.barcode] is truthy, and so is [members.get(v.barcode)]. *)
Definition passed (members : Members) (v : Visit) : bool :=
  Py.truthy (barcode v) && truthy_opt (Py.get members (barcode v)).

(** The barcode is non-empty and a key of the mapping. *)
Definition known (members : Members) (v : Visit) : bool :=
  Py.truthy (barcode v) && Py.mem members (barcode v).

Definition is_walk_in (v : Visit) : bool :=
  match reservation_id v with None => true | Some _ => false end.

(** The key a visit that passed is grouped under. *)
Definition key_of (members : Members) (v : Visit) : GroupKey :=
  (Py.or_empty (Py.get members (barcode v)), barcode v).

Lemma count_cons {A : Type} (p : A -> bool) x l :
  count p (x :: l) = (if p x then 1 else 0) + count p l.
Proof.
  unfold count; cbn [filter]. destruct (p x); cbn [List.length]; lia.
Qed.

Lemma count_nonneg {A : Type} (p : A -> bool) l : 0 <= count p l.
Proof. unfold count; lia. Qed.

Lemma count_le {A : Type} (p q : A -> bool) l :
  (forall x, p x = true -> q x = true) -> count p l <= count q l.
Proof.
  intros Hpq. induction l as [|x l IH]; [reflexivity|].
  rewrite !count_cons. specialize (Hpq x).
  destruct (p x), (q x); try lia; specialize (Hpq eq_refl); discriminate.
Qed.

Lemma grouped_append_set g k x :
  grouped_append g k x
  = Py.set g k
      (match Py.get g k with Some l => l | None => [] end ++ [x])%list.
Proof.
  unfold grouped_append, Py.dd_getitem.
  destruct (Py.get g k); [reflexivity | apply set_set].
Qed.

Lemma sum_lengths_set g k l :
  sum_lengths (Py.set g k l)
  = sum_lengths g
    - len (match Py.get g k with Some l0 => l0 | None => [] end) + len l.
Proof.
  unfold sum_lengths.
  induction g as [|[k' l'] g IH]; cbn [Py.set Py.get fold_right snd].
  - unfold len; simpl; lia.
  - destruct (Py.keyb k' k); cbn [fold_right snd]; [|rewrite IH]; lia.
Qed.

Lemma sum_lengths_append g k x :
  sum_lengths (grouped_append g k x) = sum_lengths g + 1.
Proof.
  rewrite grouped_append_set, sum_lengths_set. unfold len.
  rewrite length_app; simpl. lia.
Qed.

(** A visit that passes both checks is appended under its key and counted
    as a walk-in when it has no reservation; nothing is logged. *)
Lemma validate_step_passed members st v :
  passed members v = true ->
  validate_step members st v
  = mkVState (grouped_append (grouped st) (key_of members v) (visit_id v))
      (walk_in_count st + (if is_walk_in v then 1 else 0)) (vlog st).
Proof.
  unfold passed, validate_step, key_of, is_walk_in, truthy_opt.
  intros Hp. apply andb_prop in Hp as [Hb Hm]. rewrite Hb; simpl.
  destruct (Py.get members (barcode v)) as [m|]; [|discriminate].
  unfold Py.or_empty. rewrite Hm; simpl.
  destruct (reservation_id v); f_equal; lia.
Qed.

(** A visit that fails a check changes neither the grouped data nor the
    counter. *)
Lemma validate_step_rejected members st v :
  passed members v = false ->
  grouped (validate_step members st v) = grouped st
  /\ walk_in_count (validate_step members st v) = walk_in_count st.
Proof.
  unfold passed, validate_step, truthy_opt. intros Hp.
  destruct (Py.truthy (barcode v)); simpl in *; [|now split].
  destruct (Py.get members (barcode v)) as [m|]; [|now split].
  rewrite Hp; simpl. now split.
Qed.

Lemma validate_fold_counts members visits st :
  let st' := fold_left (validate_step members) visits st in
  sum_lengths (grouped st')
  = sum_lengths (grouped st) + count (passed members) visits
  /\ walk_in_count st'
     = walk_in_count st
       + count (fun v => passed members v && is_walk_in v) visits.
Proof.
  revert st. induction visits as [|v visits IH]; intros st;
    cbn [fold_left].
  - unfold count; simpl. lia.
  - specialize (IH (validate_step members st v)). cbv zeta in IH.
    destruct IH as [IH1 IH2]. rewrite IH1, IH2, !count_cons.
    destruct (passed members v) eqn:Hp; cbn [andb].
    + rewrite validate_step_passed by assumption.
      cbn [grouped walk_in_count]. rewrite sum_lengths_append.
      destruct (is_walk_in v); split; lia.
    + destruct (validate_step_rejected members st v Hp) as [-> ->].
      split; lia.
Qed.

Lemma validate_fold_nonempty members visits st :
  Forall (fun item => snd item <> []) (grouped st) ->
  Forall (fun item => snd item <> [])
    (grouped (fold_left (validate_step members) visits st)).
Proof.
  revert st. induction visits as [|v visits IH]; intros st Hst; simpl.
  - assumption.
  - apply IH. destruct (passed members v) eqn:Hp.
    + rewrite validate_step_passed by assumption; simpl.
      rewrite grouped_append_set.
      apply (Forall_values_set (fun l => l <> [])); [assumption|].
      now destruct (Py.get _ _) as [[|? ?]|].
    + now destruct (validate_step_rejected members st v Hp) as [-> _].
Qed.

Lemma validate_fold_wf members visits st :
  Py.wf (grouped st) ->
  Py.wf (grouped (fold_left (validate_step members) visits st)).
Proof.
  revert st. induction visits as [|v visits IH]; intros st Hst; simpl.
  - assumption.
  - apply IH. destruct (passed members v) eqn:Hp.
    + rewrite validate_step_passed by assumption; simpl.
      rewrite grouped_append_set. now apply wf_set.
    + now destruct (validate_step_rejected members st v Hp) as [-> _].
Qed.

(** The grouped data returned hold each key once. *)
Lemma validate_grouped_wf members visits :
  Py.wf (fst (validate_and_group_visits members visits)).
Proof.
  unfold validate_and_group_visits; cbn [fst].
  apply validate_fold_wf. constructor.
Qed.

(** The ids stored under a key are, in input order, those of the visits
    that passed both checks and are grouped under that key. *)
Definition ids_under (members : Members) (k : GroupKey)
    (visits : list Visit) : list string :=
  map visit_id
    (filter (fun v => passed members v && Py.keyb (key_of members v) k)
       visits).

Lemma ids_under_cons members k v visits :
  ids_under members k (v :: visits)
  = if passed members v && Py.keyb (key_of members v) k
    then visit_id v :: ids_under members k visits
    else ids_under members k visits.
Proof.
  unfold ids_under; cbn [filter].
  now destruct (passed members v && Py.keyb (key_of members v) k).
Qed.

Lemma validate_fold_lookup members visits st k :
  Py.get (grouped (fold_left (validate_step members) visits st)) k
  = match Py.get (grouped st) k, ids_under members k visits with
    | Some l, ids => Some (l ++ ids)%list
    | None, [] => None
    | None, ids => Some ids
    end.
Proof.
  revert st. induction visits as [|v visits IH]; intros st;
    cbn [fold_left].
  - unfold ids_under; cbn [filter map].
    destruct (Py.get (grouped st) k); [now rewrite app_nil_r | reflexivity].
  - rewrite IH, ids_under_cons.
    destruct (passed members v) eqn:Hp; cbn [andb].
    + rewrite validate_step_passed by assumption. cbn [grouped].
      rewrite grouped_append_set.
      destruct (Py.keyb_spec (key_of members v) k) as [->|Hk].
      * rewrite get_set_same.
        destruct (Py.get (grouped st) k); cbn [app];
          now rewrite <- ?app_assoc.
      * rewrite get_set_other by assumption. reflexivity.
    + destruct (validate_step_rejected members st v Hp) as [-> _].
      reflexivity.
Qed.

(** ** The aggregator: totals *)

Lemma summary_fold_total g st :
  snd (fold_left summary_step g st) = snd st + sum_lengths g.
Proof.
  revert st. unfold sum_lengths.
  induction g as [|item g IH]; intros st; cbn [fold_left fold_right].
  - lia.
  - rewrite IH. unfold summary_step; cbn [snd]. lia.
Qed.

Lemma build_summary_total now g w top_n :
  total_valid_visits (build_summary now g w top_n) = sum_lengths g.
Proof.
  unfold build_summary.
  pose proof (summary_fold_total g ([], 0)) as Ht.
  destruct (fold_left summary_step g ([], 0)) as [vpm total].
  cbn [total_valid_visits snd] in *. lia.
Qed.

Lemma passed_known members v :
  Forall (fun kv => snd kv <> "") members ->
  passed members v = known members v.
Proof.
  unfold passed, known, Py.mem, truthy_opt. intros Hm.
  destruct (Py.get members (barcode v)) as [m|] eqn:E; [|reflexivity].
  apply get_Some_In in E. rewrite Forall_forall in Hm.
  specialize (Hm _ E). cbn [snd] in Hm.
  destruct m; [congruence | reflexivity].
Qed.

Lemma count_ext {A : Type} (p q : A -> bool) l :
  (forall x, p x = q x) -> count p l = count q l.
Proof.
  intros Hpq. unfold count. now rewrite (filter_ext p q Hpq).
Qed.

(** *** Claims about the join *)

(** C2, as stated, at a mapping whose only barcode maps to the empty
    member_id: the visit has a non-empty barcode that is a key of the
    mapping, and yet no visit is valid. *)
Lemma C2_known_barcode_not_counted :
  let members : Members := [("b1", "")] in
  let visits := [mkVisit "v1" "b1" None] in
  let r := validate_and_group_visits members visits in
  total_valid_visits (build_summary "" (fst r) (snd r) 5) = 0
  /\ sum_lengths (fst r) = 0
  /\ count (known members) visits = 1
  /\ total_valid_visits (build_summary "" (fst r) (snd r) 5)
     <> count (known members) visits.
Proof. cbv. repeat split; discriminate. Qed.

(** C2 (amended): the total of valid visits that [build_summary] reports
    on the grouped data of [validate_and_group_visits] is the sum of the
    lengths of the grouped id sequences, which is the number of input
    visits whose barcode is non-empty and mapped to a non-empty member_id.
    When no member_id of the mapping is empty, that is the number of
    visits whose barcode is non-empty and a key of the mapping. *)
Theorem C2_total_valid_visits now members visits top_n :
  let r := validate_and_group_visits members visits in
  total_valid_visits (build_summary now (fst r) (snd r) top_n)
  = sum_lengths (fst r)
  /\ sum_lengths (fst r) = count (passed members) visits
  /\ (Forall (fun kv => snd kv <> "") members ->
      sum_lengths (fst r) = count (known members) visits).
Proof.
  cbv zeta. unfold validate_and_group_visits; cbn [fst snd].
  pose proof (validate_fold_counts members visits (mkVState [] 0 []))
    as [Hs _].
  cbv zeta in Hs. cbn [grouped sum_lengths fold_right] in Hs.
  fold (validate_and_group_visits_run members visits) in Hs.
  split; [apply build_summary_total|]. split; [lia|].
  intros Hm. rewrite Hs, Z.add_0_l.
  apply count_ext. intros v. now apply passed_known.
Qed.

Lemma C2_total_valid_visits_witness :
  let members : Members := [("b1", "m1"); ("b2", "m2")] in
  let visits :=
    [mkVisit "v1" "b1" None; mkVisit "v2" "b1" (Some "r1");
     mkVisit "v3" "b2" (Some "r2"); mkVisit "v4" "bx" None] in
  sum_lengths (fst (validate_and_group_visits members visits))
  = count (known members) visits.
Proof.
  intros members visits.
  apply (C2_total_valid_visits "" members visits 5).
  repeat constructor; discriminate.
Defined.

(** C3: the walk-in count is the number of visits that passed both checks,
    and so were appended to the grouped data, and have no reservation; the
    list under each key holds exactly the ids of the visits that passed; a
    visit that fails a check changes neither the grouped data nor the
    counter. *)
Theorem C3_walk_in_count members visits :
  snd (validate_and_group_visits members visits)
  = count (fun v => passed members v && is_walk_in v) visits
  /\ (forall k,
        Py.get (fst (validate_and_group_visits members visits)) k
        = match ids_under members k visits with
          | [] => None
          | ids => Some ids
          end)
  /\ (forall st v, passed members v = true ->
        grouped (validate_step members st v)
        = grouped_append (grouped st) (key_of members v) (visit_id v)
        /\ walk_in_count (validate_step members st v)
           = walk_in_count st + (if is_walk_in v then 1 else 0))
  /\ (forall st v, passed members v = false ->
        grouped (validate_step members st v) = grouped st
        /\ walk_in_count (validate_step members st v) = walk_in_count st).
Proof.
  unfold validate_and_group_visits; cbn [fst snd].
  unfold validate_and_group_visits_run. repeat split.
  - pose proof (validate_fold_counts members visits (mkVState [] 0 []))
      as [_ Hw].
    cbv zeta in Hw. cbn [walk_in_count] in Hw. lia.
  - intros k. now rewrite validate_fold_lookup.
  - now rewrite validate_step_passed.
  - now rewrite validate_step_passed.
  - now apply validate_step_rejected.
  - now apply validate_step_rejected.
Qed.

Lemma C3_walk_in_count_witness :
  let members : Members := [("b1", "m1"); ("b2", "m2")] in
  let st := mkVState [(("m1", "b1"), ["v1"])] 1 [] in
  (grouped (validate_step members st (mkVisit "v2" "b1" None))
   = [(("m1", "b1"), ["v1"; "v2"])]
   /\ walk_in_count (validate_step members st (mkVisit "v2" "b1" None)) = 2)
  /\ (grouped (validate_step members st (mkVisit "v4" "bx" None))
      = grouped st
      /\ walk_in_count (validate_step members st (mkVisit "v4" "bx" None))
         = walk_in_count st).
Proof.
  intros members st.
  destruct (C3_walk_in_count members []) as (_ & _ & Hp & Hr).
  split.
  - exact (Hp st (mkVisit "v2" "b1" None) eq_refl).
  - exact (Hr st (mkVisit "v4" "bx" None) eq_refl).
Defined.

(** What the loop returns does not depend on the log. *)
Definition same_result (st1 st2 : VState) : Prop :=
  grouped st1 = grouped st2 /\ walk_in_count st1 = walk_in_count st2.

Lemma validate_step_same_result members st1 st2 v :
  same_result st1 st2 ->
  same_result (validate_step members st1 v) (validate_step members st2 v).
Proof.
  intros [Hg Hw]. unfold same_result.
  destruct (passed members v) eqn:Hp.
  - rewrite !validate_step_passed by assumption.
    cbn [grouped walk_in_count]. now rewrite Hg, Hw.
  - destruct (validate_step_rejected members st1 v Hp) as [-> ->].
    destruct (validate_step_rejected members st2 v Hp) as [-> ->].
    now split.
Qed.

Lemma validate_fold_same_result members visits st1 st2 :
  same_result st1 st2 ->
  same_result (fold_left (validate_step members) visits st1)
    (fold_left (validate_step members) visits st2).
Proof.
  revert st1 st2. induction visits as [|v visits IH]; intros st1 st2 Hs;
    cbn [fold_left]; [assumption|].
  now apply IH, validate_step_same_result.
Qed.

(** C8: a visit whose barcode is a key of the mapping with the empty
    member_id is rejected: its step leaves the grouped data and the walk-in
    counter as they were, the warning logged is the one for an unknown
    barcode (the lookup is reached when the barcode is not empty), and the
    result of the whole run is the one without that visit. *)
Theorem C8_empty_member_id_rejected members v :
  Py.get members (barcode v) = Some "" ->
  Py.mem members (barcode v) = true
  /\ (forall st,
        grouped (validate_step members st v) = grouped st
        /\ walk_in_count (validate_step members st v) = walk_in_count st
        /\ (barcode v <> "" ->
            vlog (validate_step members st v)
            = (vlog st ++ [UnknownBarcode (visit_id v) (barcode v)])%list))
  /\ (forall before after,
        validate_and_group_visits members (before ++ v :: after)
        = validate_and_group_visits members (before ++ after)).
Proof.
  intros Hget.
  assert (Hp : passed members v = false).
  { unfold passed. rewrite Hget. apply andb_false_r. }
  split; [unfold Py.mem; now rewrite Hget|]. split.
  - intros st.
    destruct (validate_step_rejected members st v Hp) as [Hg Hw].
    repeat split; [assumption | assumption |].
    intros Hne. unfold validate_step. rewrite Hget.
    destruct (barcode v); [congruence | reflexivity].
  - intros before after. unfold validate_and_group_visits.
    unfold validate_and_group_visits_run.
    rewrite !fold_left_app. cbn [fold_left].
    set (st := fold_left (validate_step members) before _).
    destruct (validate_fold_same_result members after
                (validate_step members st v) st) as [-> ->];
      [|reflexivity].
    now apply validate_step_rejected.
Qed.

Lemma C8_empty_member_id_rejected_witness :
  let members : Members := [("b1", ""); ("b2", "m2")] in
  let v := mkVisit "v1" "b1" None in
  Py.mem members (barcode v) = true
  /\ validate_and_group_visits members
       ([mkVisit "v0" "b2" None] ++ v :: [mkVisit "v2" "b2" (Some "r")])
     = ([(("m2", "b2"), ["v0"; "v2"])], 1).
Proof.
  intros members v.
  destruct (C8_empty_member_id_rejected members v eq_refl) as (Hm & _ & Hr).
  split; [exact Hm|].
  rewrite (Hr [mkVisit "v0" "b2" None] [mkVisit "v2" "b2" (Some "r")]).
  reflexivity.
Defined.

(** C9: every key of the grouped data that [validate_and_group_visits]
    returns holds a non-empty sequence of visit ids. *)
Theorem C9_groups_nonempty members visits :
  let g := fst (validate_and_group_visits members visits) in
  Forall (fun item => snd item <> []) g
  /\ (forall k l, Py.get g k = Some l -> l <> []).
Proof.
  cbv zeta. unfold validate_and_group_visits; cbn [fst].
  assert (Hall : Forall (fun item : GroupKey * list string =>
                           snd item <> [])
                   (grouped (validate_and_group_visits_run members visits))).
  { apply validate_fold_nonempty. constructor. }
  split; [assumption|].
  intros k l Hget. apply get_Some_In in Hget.
  rewrite Forall_forall in Hall. exact (Hall _ Hget).
Qed.

Lemma C9_groups_nonempty_witness :
  Py.get (fst (validate_and_group_visits [("b1", "m1")]
                 [mkVisit "v1" "b1" None; mkVisit "v2" "bx" None]))
    ("m1", "b1") = Some ["v1"]
  /\ ["v1"] <> [].
Proof.
  split; [reflexivity|].
  apply (proj2 (C9_groups_nonempty [("b1", "m1")]
                  [mkVisit "v1" "b1" None; mkVisit "v2" "bx" None])
           ("m1", "b1")).
  reflexivity.
Defined.

(** C10: the walk-in count never exceeds the sum of the lengths of the
    grouped visit id sequences. *)
Theorem C10_walk_ins_le_total members visits :
  snd (validate_and_group_visits members visits)
  <= sum_lengths (fst (validate_and_group_visits members visits)).
Proof.
  unfold validate_and_group_visits; cbn [fst snd].
  pose proof (validate_fold_counts members visits (mkVState [] 0 []))
    as [Hs Hw].
  cbv zeta in Hs, Hw.
  cbn [grouped walk_in_count sum_lengths fold_right] in Hs, Hw.
  fold (validate_and_group_visits_run members visits) in Hs, Hw.
  rewrite Hs, Hw.
  apply Z.add_le_mono_l, count_le.
  intros v Hv. now apply andb_prop in Hv.
Qed.

(** ** Trimming *)

Lemma rstrip_empty s : Py.rstrip s = "" <-> Py.blank s = true.
Proof.
  induction s as [|c s IH]; simpl; [tauto|].
  destruct (Py.rstrip s) eqn:E.
  - destruct (Py.isspace c); simpl.
    + rewrite <- IH. tauto.
    + split; discriminate.
  - split; [discriminate|]. intros Hb. apply andb_prop in Hb as [_ Hb].
    apply IH in Hb. discriminate.
Qed.

Lemma blank_lstrip s : Py.blank (Py.lstrip s) = Py.blank s.
Proof.
  induction s as [|c s IH]; simpl; [reflexivity|].
  destruct (Py.isspace c) eqn:E; simpl; [assumption | now rewrite E].
Qed.

(** [s.strip()] is empty exactly when [s] holds whitespace only. *)
Lemma strip_empty s : Py.strip s = "" <-> Py.blank s = true.
Proof. unfold Py.strip. now rewrite rstrip_empty, blank_lstrip. Qed.

Lemma truthy_strip s : Py.truthy (Py.strip s) = negb (Py.blank s).
Proof.
  pose proof (strip_empty s) as Hs.
  destruct (Py.strip s), (Py.blank s); simpl; try reflexivity;
    destruct Hs as [H1 H2]; try (now discriminate H1);
    now discriminate H2.
Qed.

Lemma lstrip_head s :
  Py.lstrip s = ""
  \/ exists c t, Py.lstrip s = String c t /\ Py.isspace c = false.
Proof.
  induction s as [|c s IH]; simpl; [now left|].
  destruct (Py.isspace c) eqn:E; [assumption|].
  right. now exists c, s.
Qed.

Lemma rstrip_head c t :
  Py.isspace c = false -> Py.rstrip (String c t) = String c (Py.rstrip t).
Proof. intros E. simpl. rewrite E. now destruct (Py.rstrip t). Qed.

Lemma rstrip_cons c s :
  Py.rstrip (String c s)
  = match Py.rstrip s with
    | EmptyString => if Py.isspace c then "" else String c ""
    | r => String c r
    end.
Proof. reflexivity. Qed.

Lemma rstrip_idem s : Py.rstrip (Py.rstrip s) = Py.rstrip s.
Proof.
  induction s as [|c s IH]; [reflexivity|].
  rewrite rstrip_cons.
  destruct (Py.rstrip s) as [|c' r] eqn:E.
  - destruct (Py.isspace c) eqn:Ec; simpl; [reflexivity | now rewrite Ec].
  - rewrite rstrip_cons, IH. reflexivity.
Qed.

(** A trimmed string is left as it is by [strip]. *)
Lemma strip_idem s : Py.strip (Py.strip s) = Py.strip s.
Proof.
  unfold Py.strip. destruct (lstrip_head s) as [->|(c & t & -> & Ec)].
  - reflexivity.
  - rewrite (rstrip_head c t Ec). cbn [Py.lstrip]. rewrite Ec.
    rewrite (rstrip_head c _ Ec). now rewrite rstrip_idem.
Qed.

(** ** The loaders *)

(** [(row.get(col) or "")] *)
Definition field (row : Row) (col : string) : string :=
  Py.or_empty (row_get row col).

(** *** Members *)

Definition member_of (row : Row) : string :=
  Py.strip (field row "member_id").

Definition barcode_of (row : Row) : string :=
  Py.strip (field row "barcode").

(** Both fields of the row are non-empty once trimmed. *)
Definition valid_member_row (row : Row) : bool :=
  Py.truthy (member_of row) && Py.truthy (barcode_of row).

(** The member_id of the first row of [rows] that has both fields and
    whose trimmed barcode is [b]. *)
Definition first_member (rows : list Row) (b : string) : option string :=
  option_map member_of
    (find (fun row => valid_member_row row && String.eqb (barcode_of row) b)
       rows).

(** The mapping the loop of [load_members] ends with, started on [d]. *)
Fixpoint members_fold (rows : list Row) (d : Members) : Members :=
  match rows with
  | [] => d
  | row :: rows' =>
      if valid_member_row row && negb (Py.mem d (barcode_of row))
      then members_fold rows' (Py.set d (barcode_of row) (member_of row))
      else members_fold rows' d
  end.

(** The loop raises nothing, and its mapping depends on the rows only. *)
Lemma load_members_loop_ok name rows :
  forall line_no d log,
    exists log',
      load_members_loop name line_no rows d log
      = Ok (members_fold rows d, log').
Proof.
  induction rows as [|row rows IH]; intros line_no d log;
    cbn [load_members_loop members_fold].
  - now exists log.
  - fold (field row "member_id") (field row "barcode").
    fold (member_of row) (barcode_of row). unfold valid_member_row.
    destruct (Py.truthy (member_of row)); cbn [negb orb andb];
      [|apply IH].
    destruct (Py.truthy (barcode_of row)); cbn [negb orb andb];
      [|apply IH].
    unfold Py.mem, getitem.
    destruct (Py.get d (barcode_of row)); cbn [bind negb]; apply IH.
Qed.

Lemma members_fold_lookup rows d b :
  Py.get (members_fold rows d) b
  = match Py.get d b with
    | Some m => Some m
    | None => first_member rows b
    end.
Proof.
  revert d. induction rows as [|row rows IH]; intros d;
    cbn [members_fold].
  - unfold first_member; simpl. now destruct (Py.get d b).
  - unfold first_member. cbn [find]. fold (first_member rows b).
    destruct (valid_member_row row); cbn [andb]; [|apply IH].
    unfold Py.mem.
    destruct (String.eqb_spec (barcode_of row) b) as [->|Hne].
    + destruct (Py.get d b) eqn:E; cbn [negb].
      * now rewrite IH, E.
      * rewrite IH. now rewrite (get_set_same d b (member_of row)).
    + destruct (Py.get d (barcode_of row)) eqn:E; cbn [negb];
        rewrite IH; [reflexivity|].
      now rewrite (get_set_other d (barcode_of row) b (member_of row)).
Qed.

Lemma members_fold_app rows1 rows2 d :
  members_fold (rows1 ++ rows2) d = members_fold rows2 (members_fold rows1 d).
Proof.
  revert d. induction rows1 as [|row rows1 IH]; intros d;
    cbn [members_fold app]; [reflexivity|].
  now destruct (valid_member_row row && negb (Py.mem d (barcode_of row))).
Qed.

Lemma load_members_fold name rows :
  load_members name rows = Ok (members_fold rows []).
Proof.
  unfold load_members, load_members_run.
  destruct (load_members_loop_ok name rows 2 [] []) as [log' ->].
  reflexivity.
Qed.

(** The mapping of [load_members] holds each barcode once, and neither an
    empty barcode nor an empty member_id. *)
Lemma members_fold_wf rows d :
  Py.wf d -> Forall (fun kv => fst kv <> "" /\ snd kv <> "") d ->
  Py.wf (members_fold rows d)
  /\ Forall (fun kv => fst kv <> "" /\ snd kv <> "") (members_fold rows d).
Proof.
  revert d. induction rows as [|row rows IH]; intros d Hwf Hne;
    cbn [members_fold]; [now split|].
  destruct (valid_member_row row) eqn:Hv; cbn [andb]; [|now apply IH].
  destruct (Py.mem d (barcode_of row)) eqn:Hm; cbn [negb]; [now apply IH|].
  apply IH; [now apply wf_set|].
  unfold Py.mem in Hm.
  destruct (Py.get d (barcode_of row)) eqn:E; [discriminate|].
  apply get_None_notin in E.
  unfold valid_member_row in Hv. apply andb_prop in Hv as [Hv1 Hv2].
  clear - Hne E Hv1 Hv2.
  induction d as [|[k v] d IHd]; cbn [Py.set].
  - constructor; [|constructor]. cbn [fst snd].
    destruct (member_of row), (barcode_of row); try discriminate.
    split; discriminate.
  - inversion Hne; subst.
    destruct (Py.keyb_spec k (barcode_of row)) as [->|Hk].
    + exfalso. apply E. now left.
    + constructor; [assumption|]. apply IHd; [assumption|].
      intros Hin. apply E. now right.
Qed.

Lemma load_members_values_nonempty name rows m :
  load_members name rows = Ok m ->
  Py.wf m /\ Forall (fun kv => fst kv <> "" /\ snd kv <> "") m.
Proof.
  rewrite load_members_fold. intros [= <-].
  apply members_fold_wf; constructor.
Qed.

(** C6: [load_members] raises nothing and returns a mapping that depends
    on the rows only; under each barcode it holds the member_id of the
    first row with that trimmed barcode (among the rows that have both
    fields, the others being dropped before the duplicate check); a row
    whose trimmed barcode was already mapped by an earlier row is dropped:
    the result is the one without it. *)
Theorem C6_load_members name rows :
  exists m,
    load_members name rows = Ok m
    /\ (forall name', load_members name' rows = Ok m)
    /\ (forall b, Py.get m b = first_member rows b)
    /\ (forall before row after,
          rows = (before ++ row :: after)%list ->
          first_member before (barcode_of row) <> None ->
          load_members name (before ++ after) = Ok m).
Proof.
  exists (members_fold rows []). split; [apply load_members_fold|].
  split; [intros; apply load_members_fold|]. split.
  - intros b. now rewrite members_fold_lookup.
  - intros before row after -> Hfirst.
    rewrite load_members_fold, !members_fold_app. cbn [members_fold].
    replace (Py.mem (members_fold before []) (barcode_of row)) with true.
    + now rewrite andb_false_r.
    + unfold Py.mem. rewrite members_fold_lookup. cbn [Py.get].
      now destruct (first_member before (barcode_of row)).
Qed.

Lemma C6_load_members_witness :
  load_members "members.csv"
    ([row2 "member_id" "m1" "barcode" " b1"]
     ++ [row2 "member_id" "m2" "barcode" "b2"])
  = Ok [("b1", "m1"); ("b2", "m2")].
Proof.
  destruct (C6_load_members "members.csv"
              [row2 "member_id" "m1" "barcode" " b1";
               row2 "member_id" "m3" "barcode" "b1 ";
               row2 "member_id" "m2" "barcode" "b2"])
    as (m & Hm & _ & _ & Hdrop).
  rewrite (Hdrop [row2 "member_id" "m1" "barcode" " b1"]
             (row2 "member_id" "m3" "barcode" "b1 ")
             [row2 "member_id" "m2" "barcode" "b2"] eq_refl).
  - rewrite <- Hm. reflexivity.
  - discriminate.
Defined.

(** *** Visits *)

(** The visit_id of the row is not empty once trimmed. *)
Definition has_visit_id (row : Row) : bool :=
  negb (String.eqb (Py.strip (field row "visit_id")) "").

(** The record [load_visits] builds from a row. *)
Definition visit_of_row (row : Row) : Visit :=
  mkVisit (Py.strip (field row "visit_id")) (Py.strip (field row "barcode"))
    (Py.or_None (Py.strip (field row "reservation_id"))).

Lemma truthy_eqb s : Py.truthy s = negb (String.eqb s "").
Proof. now destruct s. Qed.

Lemma load_visits_loop_fst name rows :
  forall line_no visits log,
    fst (load_visits_loop name line_no rows visits log)
    = (visits ++ map visit_of_row (filter has_visit_id rows))%list.
Proof.
  induction rows as [|row rows IH]; intros line_no visits log;
    cbn [load_visits_loop filter map].
  - now rewrite app_nil_r.
  - fold (field row "visit_id") (field row "barcode")
      (field row "reservation_id").
    unfold has_visit_id at 1. rewrite <- truthy_eqb.
    destruct (Py.truthy (Py.strip (field row "visit_id"))); cbn [negb].
    + rewrite IH, <- app_assoc. reflexivity.
    + apply IH.
Qed.

Lemma load_visits_map name rows :
  load_visits name rows = map visit_of_row (filter has_visit_id rows).
Proof.
  unfold load_visits, load_visits_run. now rewrite load_visits_loop_fst.
Qed.

(** C7: every record [load_visits] returns has a non-empty, trimmed
    visit_id; the records are those of the rows whose visit_id is not
    empty once trimmed, in input order, and the reservation_id of a record
    is [None] whenever the field of its row is missing, empty or made of
    whitespace only. *)
Theorem C7_load_visits name rows :
  Forall (fun v => visit_id v <> "" /\ Py.strip (visit_id v) = visit_id v)
    (load_visits name rows)
  /\ Forall2
       (fun row v =>
          visit_id v = Py.strip (field row "visit_id")
          /\ barcode v = Py.strip (field row "barcode")
          /\ reservation_id v
             = if Py.blank (field row "reservation_id") then None
               else Some (Py.strip (field row "reservation_id")))
       (filter has_visit_id rows) (load_visits name rows).
Proof.
  rewrite load_visits_map. split.
  - apply Forall_map, Forall_forall. intros row Hin.
    apply filter_In in Hin as [_ Hk]. cbn [visit_of_row visit_id].
    split; [|apply strip_idem].
    unfold has_visit_id in Hk. apply negb_true_iff in Hk.
    now apply String.eqb_neq in Hk.
  - induction (filter has_visit_id rows) as [|row l IH]; cbn [map];
      constructor; [|assumption].
    cbn [visit_of_row visit_id barcode reservation_id].
    repeat split. unfold Py.or_None.
    rewrite truthy_strip. now destruct (Py.blank _).
Qed.

(** The scenario of the specification for the join. *)
Example scenario_join :
  validate_and_group_visits [("b1", "m1"); ("b2", "m2")]
    [mkVisit "v1" "b1" None; mkVisit "v2" "b1" (Some "r1");
     mkVisit "v3" "b2" (Some "r2"); mkVisit "v4" "bx" None]
  = ([(("m1", "b1"), ["v1"; "v2"]); (("m2", "b2"), ["v3"])], 1).
Proof. reflexivity. Qed.

Example load_visits_whitespace :
  load_visits "visits.csv"
    [row3 "visit_id" " v1 " "barcode" "b1" "reservation_id" "   ";
     row3 "visit_id" "   " "barcode" "b2" "reservation_id" "r2";
     [("visit_id", Some "v3"); ("barcode", None)]]
  = [mkVisit "v1" "b1" None; mkVisit "v3" "" None].
Proof. reflexivity. Qed.

(** ** Orders *)

(** A strict total order given by its boolean [<]. *)
Class StrictTotal {K : Type} (lt : K -> K -> bool) : Prop := {
  lt_irrefl : forall a, lt a a = false;
  lt_trans : forall a b c, lt a b = true -> lt b c = true -> lt a c = true;
  lt_total : forall a b, lt a b = false -> lt b a = false -> a = b
}.

Lemma lt_asym {K : Type} (lt : K -> K -> bool) `{!StrictTotal lt} a b :
  lt a b = true -> lt b a = false.
Proof.
  intros Hab. destruct (lt b a) eqn:Hba; [|reflexivity].
  pose proof (lt_trans a b a Hab Hba) as Haa.
  rewrite lt_irrefl in Haa. discriminate.
Qed.

(** [a <= b], that is not [b < a], is transitive. *)
Lemma le_trans {K : Type} (lt : K -> K -> bool) `{!StrictTotal lt} a b c :
  lt b a = false -> lt c b = false -> lt c a = false.
Proof.
  intros Hba Hcb. destruct (lt c a) eqn:Hca; [|reflexivity].
  destruct (lt a b) eqn:Hab.
  - pose proof (lt_trans c a b Hca Hab). congruence.
  - pose proof (lt_total a b Hab Hba). subst. congruence.
Qed.

Lemma str_compare_refl a : String.compare a a = Eq.
Proof.
  induction a as [|x a IH]; simpl; [reflexivity|].
  unfold Ascii.compare. now rewrite N.compare_refl.
Qed.

Lemma str_compare_lt_trans a b c :
  String.compare a b = Lt -> String.compare b c = Lt ->
  String.compare a c = Lt.
Proof.
  revert b c. induction a as [|x a IH]; intros [|y b] [|z c]; simpl;
    try discriminate; try reflexivity.
  unfold Ascii.compare.
  destruct (N.compare_spec (N_of_ascii x) (N_of_ascii y));
    destruct (N.compare_spec (N_of_ascii y) (N_of_ascii z));
    destruct (N.compare_spec (N_of_ascii x) (N_of_ascii z));
    try discriminate; try reflexivity; try lia.
  apply IH.
Qed.

#[export] Instance str_lt_StrictTotal : StrictTotal Py.str_lt.
Proof.
  unfold Py.str_lt. split.
  - intros a. now rewrite str_compare_refl.
  - intros a b c Hab Hbc.
    destruct (String.compare a b) eqn:Eab; try discriminate.
    destruct (String.compare b c) eqn:Ebc; try discriminate.
    now rewrite (str_compare_lt_trans a b c Eab Ebc).
  - intros a b Hab Hba. rewrite String.compare_antisym in Hba.
    destruct (String.compare a b) eqn:Eab; try discriminate.
    now apply String.compare_eq_iff.
Qed.

#[export] Instance Z_ltb_StrictTotal : StrictTotal Z.ltb.
Proof.
  split.
  - apply Z.ltb_irrefl.
  - intros a b c Hab Hbc. apply Z.ltb_lt in Hab, Hbc. apply Z.ltb_lt. lia.
  - intros a b Hab Hba. apply Z.ltb_ge in Hab, Hba. lia.
Qed.

#[export] Instance pair_lt_StrictTotal {A B : Type}
    (eqa lta : A -> A -> bool) (ltb : B -> B -> bool)
    (eqa_spec : forall x y, reflect (x = y) (eqa x y))
    `{!StrictTotal lta} `{!StrictTotal ltb} :
  StrictTotal (Py.pair_lt eqa lta ltb).
Proof.
  unfold Py.pair_lt. split.
  - intros [a b]; cbn [fst snd].
    destruct (eqa_spec a a); [apply lt_irrefl | congruence].
  - intros [a1 b1] [a2 b2] [a3 b3]; cbn [fst snd].
    destruct (eqa_spec a1 a2) as [->|H12].
    + destruct (eqa_spec a2 a3) as [->|H23]; [apply lt_trans | tauto].
    + destruct (eqa_spec a2 a3) as [->|H23].
      * destruct (eqa_spec a1 a3); [congruence | tauto].
      * intros H1 H2. pose proof (lt_trans a1 a2 a3 H1 H2) as H13.
        destruct (eqa_spec a1 a3) as [->|]; [|assumption].
        rewrite lt_irrefl in H13. discriminate.
  - intros [a1 b1] [a2 b2]; cbn [fst snd].
    destruct (eqa_spec a1 a2) as [->|H12].
    + destruct (eqa_spec a2 a2); [|congruence].
      intros H1 H2. now rewrite (lt_total b1 b2 H1 H2).
    + destruct (eqa_spec a2 a1); [congruence|].
      intros H1 H2. now pose proof (lt_total a1 a2 H1 H2).
Qed.

#[export] Instance group_key_lt_StrictTotal : StrictTotal group_key_lt.
Proof. apply pair_lt_StrictTotal; [apply String.eqb_spec | exact _ ..]. Qed.

#[export] Instance rank_key_lt_StrictTotal : StrictTotal rank_key_lt.
Proof. apply pair_lt_StrictTotal; [apply Z.eqb_spec | exact _ ..]. Qed.

(** ** [sorted] *)

Section SortedFacts.
Context {A K : Type} (lt : K -> K -> bool) `{!StrictTotal lt} (key : A -> K).

Definition key_le (a b : A) : Prop := lt (key b) (key a) = false.
Definition key_lt (a b : A) : Prop := lt (key a) (key b) = true.

Lemma insert_perm x l : Permutation (Py.insert lt key x l) (x :: l).
Proof.
  induction l as [|y l IH]; cbn [Py.insert]; [reflexivity|].
  destruct (lt (key y) (key x)); [|reflexivity].
  rewrite IH. apply perm_swap.
Qed.

Lemma sorted_perm l : Permutation (Py.sorted lt key l) l.
Proof.
  induction l as [|x l IH]; cbn [Py.sorted]; [reflexivity|].
  rewrite insert_perm. now constructor.
Qed.

Lemma insert_sorted x l :
  StronglySorted key_le l -> StronglySorted key_le (Py.insert lt key x l).
Proof.
  induction 1 as [|y l Hs IH Hall]; cbn [Py.insert].
  - repeat constructor.
  - destruct (lt (key y) (key x)) eqn:E.
    + constructor; [assumption|].
      rewrite (insert_perm x l). constructor; [|assumption].
      unfold key_le. now apply lt_asym.
    + constructor; [now constructor|].
      constructor; [exact E|].
      eapply Forall_impl; [|exact Hall]. intros z Hz. unfold key_le in *.
      now apply (le_trans lt (key x) (key y) (key z)).
Qed.

Lemma sorted_sorted l : StronglySorted key_le (Py.sorted lt key l).
Proof.
  induction l as [|x l IH]; cbn [Py.sorted];
    [constructor | now apply insert_sorted].
Qed.

Lemma sorted_le_strict l :
  StronglySorted key_le l -> NoDup (map key l) -> StronglySorted key_lt l.
Proof.
  induction 1 as [|x l Hs IH Hall]; cbn [map]; intros Hnd;
    [constructor|].
  inversion Hnd as [|? ? Hni Hnd']; subst.
  constructor; [auto|].
  rewrite Forall_forall in Hall |- *. intros y Hy.
  unfold key_lt. destruct (lt (key x) (key y)) eqn:E; [reflexivity|].
  exfalso. apply Hni.
  rewrite (lt_total (key x) (key y) E (Hall y Hy)). now apply in_map.
Qed.

(** With pairwise distinct keys, the result is strictly ascending. *)
Lemma sorted_strict l :
  NoDup (map key l) -> StronglySorted key_lt (Py.sorted lt key l).
Proof.
  intros Hnd. apply sorted_le_strict; [apply sorted_sorted|].
  eapply Permutation_NoDup; [|exact Hnd].
  apply Permutation_map, Permutation_sym, sorted_perm.
Qed.

(** A strictly ascending arrangement of given elements is unique. *)
Lemma strict_sorted_unique l1 l2 :
  StronglySorted key_lt l1 -> StronglySorted key_lt l2 ->
  Permutation l1 l2 -> l1 = l2.
Proof.
  intros H1. revert l2.
  induction H1 as [|x l1 Hs1 IH Hall1]; intros l2 H2 Hp.
  - now apply Permutation_nil in Hp.
  - destruct H2 as [|y l2 Hs2 Hall2].
    + apply Permutation_sym, Permutation_nil in Hp. discriminate.
    + assert (Hxy : x = y).
      { assert (Hx : In x (y :: l2))
          by (eapply Permutation_in; [exact Hp | now left]).
        assert (Hy : In y (x :: l1))
          by (eapply Permutation_in;
              [exact (Permutation_sym Hp) | now left]).
        destruct Hx as [Hx|Hx]; [now symmetry|].
        destruct Hy as [Hy|Hy]; [assumption|].
        rewrite Forall_forall in Hall1, Hall2.
        pose proof (Hall1 y Hy) as Hlt1. pose proof (Hall2 x Hx) as Hlt2.
        unfold key_lt in *. apply (lt_asym lt) in Hlt1. congruence. }
      subst y. f_equal. apply IH; [assumption|].
      now apply Permutation_cons_inv in Hp.
Qed.

(** The order in which the elements are given does not matter when their
    keys are pairwise distinct. *)
Lemma sorted_perm_invariant l l' :
  NoDup (map key l) -> Permutation l l' ->
  Py.sorted lt key l = Py.sorted lt key l'.
Proof.
  intros Hnd Hp. apply strict_sorted_unique.
  - now apply sorted_strict.
  - apply sorted_strict. eapply Permutation_NoDup; [|exact Hnd].
    now apply Permutation_map.
  - now rewrite !sorted_perm.
Qed.
End SortedFacts.

(** ** The report writer *)

Lemma str_app_assoc (a b c : string) : (a ++ b) ++ c = a ++ (b ++ c).
Proof. induction a as [|x a IH]; simpl; [reflexivity | now rewrite IH]. Qed.

Lemma str_app_nil_r (a : string) : a ++ "" = a.
Proof. induction a as [|x a IH]; simpl; [reflexivity | now rewrite IH]. Qed.

(** The writes of a run, one after the other. *)
Definition concat_all (l : list string) : string :=
  fold_right String.append "" l.

(** [grouped_data[k]] when [k] is a key. *)
Definition lookup (g : GroupedVisits) (k : GroupKey) : list string :=
  match Py.get g k with Some l => l | None => [] end.

(** The row written for an item of the grouped data. *)
Definition row_line (item : GroupKey * list string) : string :=
  output_line (fst (fst item)) (snd (fst item)) (snd item).

(** [(m1, b1)] sorts before [(m2, b2)]: ascending member_id, then
    ascending barcode. *)
Definition key_before (k1 k2 : GroupKey) : Prop :=
  String.compare (fst k1) (fst k2) = Lt
  \/ (fst k1 = fst k2 /\ String.compare (snd k1) (snd k2) = Lt).

Lemma group_key_lt_spec k1 k2 :
  group_key_lt k1 k2 = true <-> key_before k1 k2.
Proof.
  unfold group_key_lt, Py.pair_lt, key_before, Py.str_lt.
  destruct (String.eqb_spec (fst k1) (fst k2)) as [E|E].
  - rewrite E, str_compare_refl.
    destruct (String.compare (snd k1) (snd k2)); split;
      try discriminate; try tauto;
      intros [H|[_ H]]; discriminate.
  - destruct (String.compare (fst k1) (fst k2)); split;
      try discriminate; try tauto;
      intros [H|[H _]]; try discriminate; contradiction.
Qed.

(** The rows of the report: the sorted keys with their lists. *)
Definition sorted_items (g : GroupedVisits) : list (GroupKey * list string) :=
  map (fun k => (k, lookup g k))
    (Py.sorted group_key_lt (fun k => k) (Py.keys g)).

Lemma write_output_loop_ok g todo f :
  (forall k, In k todo -> In k (Py.keys g)) ->
  write_output_loop g todo f
  = Ok (f ++ concat_all (map (fun k => row_line (k, lookup g k)) todo)).
Proof.
  revert f. induction todo as [|[m b] todo IH]; intros f Hin;
    cbn [write_output_loop map concat_all fold_right].
  - now rewrite str_app_nil_r.
  - unfold getitem, lookup at 1.
    destruct (Py.get g (m, b)) as [l|] eqn:E; cbn [bind].
    + rewrite IH by (intros k Hk; apply Hin; now right).
      unfold row_line; cbn [fst snd]. now rewrite str_app_assoc.
    + exfalso. apply get_None_notin in E. apply E, Hin. now left.
Qed.

Lemma items_of_keys g :
  Py.wf g -> map (fun k => (k, lookup g k)) (Py.keys g) = g.
Proof.
  unfold Py.wf, Py.keys.
  induction g as [|[k v] g IH]; cbn [map fst]; intros Hnd;
    [reflexivity|].
  inversion Hnd as [|? ? Hni Hnd']; subst. f_equal.
  - unfold lookup; cbn [Py.get]. now rewrite keyb_refl.
  - rewrite <- (IH Hnd') at 2. apply map_ext_in. intros k' Hk'.
    unfold lookup; cbn [Py.get].
    rewrite keyb_neq; [reflexivity|]. intros ->. contradiction.
Qed.

Lemma StronglySorted_map {A B : Type} (f : A -> B) (R : B -> B -> Prop) l :
  StronglySorted (fun a b => R (f a) (f b)) l -> StronglySorted R (map f l).
Proof.
  induction 1 as [|x l Hs IH Hall]; cbn [map]; constructor;
    [assumption|].
  now apply Forall_map.
Qed.

Lemma perm_lookup g g' k :
  Py.wf g -> Permutation g' g -> lookup g' k = lookup g k.
Proof.
  intros Hwf Hp.
  assert (Hwf' : Py.wf g').
  { unfold Py.wf, Py.keys. eapply Permutation_NoDup; [|exact Hwf].
    apply Permutation_map, Permutation_sym, Hp. }
  unfold lookup. destruct (Py.get g k) as [l|] eqn:E.
  - apply get_Some_In in E.
    rewrite (In_get g' k l Hwf'); [reflexivity|].
    eapply Permutation_in; [apply Permutation_sym, Hp | exact E].
  - destruct (Py.get g' k) as [l'|] eqn:E'; [|reflexivity].
    apply get_Some_In in E'.
    rewrite (In_get g k l' Hwf) in E; [discriminate|].
    eapply Permutation_in; [exact Hp | exact E'].
Qed.

Lemma sorted_items_perm g g' :
  Py.wf g -> Permutation g' g -> sorted_items g' = sorted_items g.
Proof.
  intros Hwf Hp. unfold sorted_items.
  rewrite (sorted_perm_invariant group_key_lt (fun k => k)
             (Py.keys g') (Py.keys g)).
  - apply map_ext. intros k. now rewrite (perm_lookup g g' k).
  - rewrite map_id. eapply Permutation_NoDup; [|exact Hwf].
    apply Permutation_map, Permutation_sym, Hp.
  - now apply Permutation_map.
Qed.

Lemma sorted_items_permutation g :
  Py.wf g -> Permutation (sorted_items g) g.
Proof.
  intros Hwf. unfold sorted_items.
  rewrite <- (items_of_keys g Hwf) at 2.
  apply Permutation_map, sorted_perm.
Qed.

Lemma write_output_rows g :
  write_output g
  = Ok (("member_id,barcode,visits" ++ String "010" "")
        ++ concat_all (map row_line (sorted_items g))).
Proof.
  unfold write_output. rewrite write_output_loop_ok.
  - unfold sorted_items. now rewrite map_map.
  - intros k Hk. eapply Permutation_in; [|exact Hk]. apply sorted_perm.
Qed.

(** C5: [write_output] writes the header line and then one row per key of
    the grouped data, the keys ascending by member_id and then barcode
    whatever the insertion order was, each row being the member_id, the
    barcode and the bracketed list of visit ids joined by a comma and a
    space, written as they are. *)
Theorem C5_write_output g :
  Py.wf g ->
  exists rows,
    write_output g
    = Ok (("member_id,barcode,visits" ++ String "010" "")
          ++ concat_all (map row_line rows))
    /\ Permutation rows g
    /\ StronglySorted (fun a b => key_before (fst a) (fst b)) rows
    /\ (forall m b ids,
          row_line ((m, b), ids)
          = m ++ "," ++ b ++ "," ++ "[" ++ Py.join ", " ids ++ "]"
            ++ String "010" "")
    /\ (forall g', Permutation g' g -> write_output g' = write_output g).
Proof.
  intros Hwf. exists (sorted_items g).
  split; [apply write_output_rows|]. split; [|split; [|split]].
  - now apply sorted_items_permutation.
  - unfold sorted_items.
    pose proof (sorted_strict group_key_lt (fun k => k) (Py.keys g)) as Hs.
    rewrite map_id in Hs. specialize (Hs Hwf).
    induction Hs as [|k l Hs IH Hall]; cbn [map]; constructor;
      [assumption|].
    apply Forall_map. eapply Forall_impl; [|exact Hall].
    intros k' Hk'. cbn [fst]. now apply group_key_lt_spec.
  - intros m b ids. unfold row_line, output_line; cbn [fst snd].
    now rewrite !str_app_assoc.
  - intros g' Hp. rewrite !write_output_rows.
    now rewrite (sorted_items_perm g g' Hwf Hp).
Qed.

Lemma C5_write_output_witness :
  write_output [(("m2", "b2"), ["v3"]); (("m1", "b9"), []);
                (("m1", "b1"), ["v1"; "v2"])]
  = write_output [(("m1", "b1"), ["v1"; "v2"]); (("m1", "b9"), []);
                  (("m2", "b2"), ["v3"])].
Proof.
  assert (Hwf : Py.wf
            [(("m1", "b1"), ["v1"; "v2"]); (("m1", "b9"), @nil string);
             (("m2", "b2"), ["v3"])]).
  { unfold Py.wf; cbn [Py.keys map fst].
    repeat constructor; cbn [In]; intuition discriminate. }
  destruct (C5_write_output _ Hwf) as (rows & _ & _ & _ & _ & Hperm).
  apply Hperm.
  apply Permutation_sym, Permutation_cons_app with (l1 := [_; _]) (l2 := []).
  cbn [app]. apply perm_swap.
Defined.

(** Fields are written as they are: a comma or a quote is not escaped. *)
Example write_output_unquoted :
  write_output [(("a,b", "c"), ["x, y"; "z"])]
  = Ok ("member_id,barcode,visits" ++ String "010" ""
        ++ "a,b,c,[x, y, z]" ++ String "010" "").
Proof. reflexivity. Qed.

(** ** The aggregator: ranking *)

(** The member_ids of the grouped data, one per key. *)
Definition members_of (g : GroupedVisits) : list string :=
  map (fun item => fst (fst item)) g.

(** The visits of member [m], over all the barcodes of [m]. *)
Definition member_total (g : GroupedVisits) (m : string) : Z :=
  fold_right
    (fun item acc =>
       if String.eqb (fst (fst item)) m then len (snd item) + acc else acc)
    0 g.

(** The per-member totals both functions accumulate. *)
Definition per_member_from (g : GroupedVisits) (d : Py.dict string Z)
  : Py.dict string Z :=
  fold_left (fun d item => add_visits d (fst (fst item)) (len (snd item)))
    g d.

Definition per_member (g : GroupedVisits) : Py.dict string Z :=
  per_member_from g [].

(** [a] ranks before [b]: more visits, or as many and a smaller
    member_id. *)
Definition ranks_before (a b : TopMember) : Prop :=
  visit_count b < visit_count a
  \/ (visit_count a = visit_count b
      /\ String.compare (member_id a) (member_id b) = Lt).

Definition to_top (item : string * Z) : TopMember :=
  mkTopMember (fst item) (snd item).

(** The whole ranking, before it is cut to [top_n] entries. *)
Definition ranking_of (g : GroupedVisits) : list TopMember :=
  map to_top (Py.sorted rank_key_lt rank_key (per_member g)).

Lemma add_visits_set d m c :
  add_visits d m c
  = Py.set d m (match Py.get d m with Some c0 => c0 | None => 0 end + c).
Proof.
  unfold add_visits, Py.dd_getitem.
  destruct (Py.get d m); [reflexivity | apply set_set].
Qed.

Lemma summary_fold_fst g st :
  fst (fold_left summary_step g st) = per_member_from g (fst st).
Proof.
  revert st. unfold per_member_from.
  induction g as [|item g IH]; intros st; cbn [fold_left]; [reflexivity|].
  now rewrite IH.
Qed.

Lemma per_member_from_wf g d : Py.wf d -> Py.wf (per_member_from g d).
Proof.
  revert d. unfold per_member_from.
  induction g as [|item g IH]; intros d Hwf; cbn [fold_left];
    [assumption|].
  apply IH. rewrite add_visits_set. now apply wf_set.
Qed.

Lemma per_member_from_lookup g d m :
  Py.get (per_member_from g d) m
  = match Py.get d m with
    | Some c => Some (c + member_total g m)
    | None => if existsb (fun m' => String.eqb m' m) (members_of g)
              then Some (member_total g m) else None
    end.
Proof.
  revert d. unfold per_member_from, member_total, members_of.
  induction g as [|[[m0 b0] l0] g IH]; intros d;
    cbn [fold_left fold_right map existsb fst snd].
  - destruct (Py.get d m); [f_equal; lia | reflexivity].
  - rewrite IH, add_visits_set.
    destruct (String.eqb_spec m0 m) as [->|Hne]; cbn [orb].
    + rewrite get_set_same.
      destruct (Py.get d m); f_equal; lia.
    + now rewrite get_set_other.
Qed.

Lemma existsb_eqb_In m l :
  existsb (fun m' => String.eqb m' m) l = true <-> In m l.
Proof.
  rewrite existsb_exists. split.
  - intros (m' & Hin & E). apply String.eqb_eq in E. now subst.
  - intros Hin. exists m. split; [assumption | apply String.eqb_refl].
Qed.

(** The per-member dict holds exactly the members of the grouped data,
    each once, with the total over all its keys. *)
Lemma per_member_spec g m c :
  In (m, c) (per_member g) <-> In m (members_of g) /\ c = member_total g m.
Proof.
  assert (Hwf : Py.wf (per_member g))
    by (apply per_member_from_wf; constructor).
  pose proof (per_member_from_lookup g [] m) as Hl.
  cbn [Py.get] in Hl. fold (per_member g) in Hl.
  destruct (existsb _ (members_of g)) eqn:E.
  - apply existsb_eqb_In in E. split.
    + intros Hin. apply (In_get _ _ _ Hwf) in Hin.
      split; [assumption | congruence].
    + intros [_ ->]. now apply get_Some_In.
  - split.
    + intros Hin. apply (In_get _ _ _ Hwf) in Hin. congruence.
    + intros [Hin _]. apply existsb_eqb_In in Hin. congruence.
Qed.

Lemma rank_key_lt_spec x y :
  rank_key_lt (rank_key x) (rank_key y) = true
  <-> ranks_before (to_top x) (to_top y).
Proof.
  unfold rank_key_lt, Py.pair_lt, rank_key, ranks_before, to_top, Py.str_lt.
  cbn [fst snd visit_count member_id].
  destruct (Z.eqb_spec (- snd x) (- snd y)) as [E|E].
  - destruct (String.compare (fst x) (fst y)); split;
      try discriminate; try (intros _; right; split; [lia | reflexivity]);
      intros [H|[_ H]]; try discriminate; lia.
  - rewrite Z.ltb_lt. split.
    + intros H. left. lia.
    + intros [H|[H _]]; lia.
Qed.

Lemma rank_keys_NoDup (d : Py.dict string Z) :
  Py.wf d -> NoDup (map rank_key d).
Proof.
  unfold Py.wf, Py.keys. intros Hnd.
  apply (NoDup_map_inv snd). rewrite map_map.
  erewrite map_ext; [exact Hnd|]. reflexivity.
Qed.

Lemma ranking_of_sorted g : StronglySorted ranks_before (ranking_of g).
Proof.
  unfold ranking_of. apply StronglySorted_map.
  pose proof (sorted_strict rank_key_lt rank_key (per_member g)) as Hs.
  specialize (Hs (rank_keys_NoDup _
                    (per_member_from_wf g [] (NoDup_nil _)))).
  induction Hs as [|x l Hs IH Hall]; constructor; [assumption|].
  eapply Forall_impl; [|exact Hall].
  intros y Hy. now apply rank_key_lt_spec.
Qed.

Lemma slice_to_nonneg {A : Type} (n : Z) (l : list A) :
  0 <= n -> Py.slice_to n l = firstn (Z.to_nat n) l.
Proof.
  intros Hn. unfold Py.slice_to.
  destruct (Z.ltb_spec n 0); [lia | reflexivity].
Qed.

Lemma slice_to_prefix {A : Type} (n : Z) (l : list A) :
  exists k, Py.slice_to n l = firstn k l.
Proof. unfold Py.slice_to. destruct (n <? 0); eexists; reflexivity. Qed.

Lemma build_summary_top now g w top_n :
  top_members (build_summary now g w top_n)
  = map to_top
      (Py.slice_to top_n (Py.sorted rank_key_lt rank_key (per_member g))).
Proof.
  unfold build_summary.
  pose proof (summary_fold_fst g ([], 0)) as Hf.
  destruct (fold_left summary_step g ([], 0)) as [vpm total].
  cbn [fst] in Hf. cbn [top_members]. subst vpm. reflexivity.
Qed.

Lemma StronglySorted_nth {A : Type} (R : A -> A -> Prop) l :
  StronglySorted R l ->
  forall i j a b,
    (i < j)%nat -> nth_error l i = Some a -> nth_error l j = Some b ->
    R a b.
Proof.
  induction 1 as [|x l Hs IH Hall]; intros i j a b Hij Hi Hj.
  - destruct i; discriminate.
  - destruct j as [|j]; [lia|]. cbn [nth_error] in Hj.
    destruct i as [|i]; cbn [nth_error] in Hi.
    + injection Hi as <-. rewrite Forall_forall in Hall.
      apply Hall. eapply nth_error_In; eassumption.
    + apply (IH i j); [lia | assumption | assumption].
Qed.

Lemma In_ranking_of g m c :
  In (mkTopMember m c) (ranking_of g) <-> In (m, c) (per_member g).
Proof.
  unfold ranking_of. rewrite in_map_iff. split.
  - intros ([m' c'] & E & Hin). unfold to_top in E; cbn [fst snd] in E.
    injection E as -> ->.
    eapply Permutation_in; [|exact Hin]. apply sorted_perm.
  - intros Hin. exists (m, c). split; [reflexivity|].
    eapply Permutation_in; [|exact Hin].
    apply Permutation_sym, sorted_perm.
Qed.

Lemma ranking_of_NoDup g : NoDup (map member_id (ranking_of g)).
Proof.
  unfold ranking_of. rewrite map_map.
  erewrite map_ext; [|intros x; unfold to_top; cbn [member_id];
                      reflexivity].
  eapply Permutation_NoDup;
    [apply Permutation_map, Permutation_sym, sorted_perm|].
  apply (per_member_from_wf g []). constructor.
Qed.

(** C1: the top members of [build_summary], and the lines of
    [print_top_members], are the first [top_n] entries of the ranking of
    the members, each with the total of its visits, sorted by descending
    visit count with ties broken by ascending member_id; of two entries
    with the same visit count the one with the smaller member_id comes
    first. ([top_n] is the N of the specification, not negative; for every
    [top_n] the result is a prefix of the ranking.) *)
Theorem C1_top_members now g w :
  exists ranking : list TopMember,
    (forall m c,
        In (mkTopMember m c) ranking
        <-> In m (members_of g) /\ c = member_total g m)
    /\ NoDup (map member_id ranking)
    /\ StronglySorted ranks_before ranking
    /\ (forall top_n, 0 <= top_n ->
          top_members (build_summary now g w top_n)
          = firstn (Z.to_nat top_n) ranking
          /\ print_top_members g top_n
             = ([rule_line; top_header top_n]
                ++ map (fun t => ranking_line (member_id t, visit_count t))
                     (firstn (Z.to_nat top_n) ranking)
                ++ [rule_line])%list)
    /\ (forall top_n, exists n,
          top_members (build_summary now g w top_n) = firstn n ranking)
    /\ (forall top_n i j a b,
          (i < j)%nat ->
          nth_error (top_members (build_summary now g w top_n)) i = Some a ->
          nth_error (top_members (build_summary now g w top_n)) j = Some b ->
          visit_count a = visit_count b ->
          String.compare (member_id a) (member_id b) = Lt).
Proof.
  exists (ranking_of g).
  assert (Hprefix : forall top_n, exists n,
             top_members (build_summary now g w top_n)
             = firstn n (ranking_of g)).
  { intros top_n. rewrite build_summary_top.
    destruct (slice_to_prefix top_n
                (Py.sorted rank_key_lt rank_key (per_member g)))
      as [n ->].
    exists n. unfold ranking_of. now rewrite firstn_map. }
  split; [|split; [|split; [|split; [|split]]]].
  - intros m c. now rewrite In_ranking_of, per_member_spec.
  - apply ranking_of_NoDup.
  - apply ranking_of_sorted.
  - intros top_n Hn. split.
    + rewrite build_summary_top, slice_to_nonneg by assumption.
      unfold ranking_of. now rewrite firstn_map.
    + unfold print_top_members. fold (per_member_from g []).
      fold (per_member g). rewrite slice_to_nonneg by assumption.
      unfold ranking_of. rewrite firstn_map, map_map.
      reflexivity.
  - exact Hprefix.
  - intros top_n i j a b Hij Hi Hj Hc.
    destruct (Hprefix top_n) as [n Hn]. rewrite Hn in Hi, Hj.
    rewrite nth_error_firstn in Hi, Hj.
    destruct (Nat.ltb i n); [|discriminate].
    destruct (Nat.ltb j n); [|discriminate].
    pose proof (StronglySorted_nth ranks_before _ (ranking_of_sorted g)
                  i j a b Hij Hi Hj) as [Hlt|[_ Hlt]];
      [lia | assumption].
Qed.

Lemma C1_top_members_witness :
  let g : GroupedVisits :=
    [(("m2", "b2"), ["v1"; "v2"; "v3"]); (("m3", "b3"), ["v4"]);
     (("m1", "b1"), ["v5"; "v6"]); (("m1", "b9"), ["v7"])] in
  top_members (build_summary "" g 0 2)
  = [mkTopMember "m1" 3; mkTopMember "m2" 3]
  /\ String.compare "m1" "m2" = Lt.
Proof.
  intros g.
  destruct (C1_top_members "" g 0) as (ranking & _ & _ & _ & _ & _ & Htie).
  split; [reflexivity|].
  exact (Htie 2 0%nat 1%nat (mkTopMember "m1" 3) (mkTopMember "m2" 3)
           (Nat.lt_0_succ 0) eq_refl eq_refl eq_refl).
Defined.

(** The scenarios of the specification for the ranking. *)
Example scenario_tie :
  top_members
    (build_summary ""
       [(("mb", "b1"), ["v1"; "v2"; "v3"]); (("ma", "b2"), ["v4"; "v5"; "v6"])]
       0 5)
  = [mkTopMember "ma" 3; mkTopMember "mb" 3].
Proof. reflexivity. Qed.

Example scenario_top_0 :
  build_summary "" [(("m1", "b1"), ["v1"; "v2"]); (("m2", "b2"), ["v3"])] 2 0
  = mkSummary "" 3 2 [].
Proof. reflexivity. Qed.

(** A negative [top_n] is a slice bound counted from the end. *)
Example top_n_negative :
  top_members
    (build_summary ""
       [(("m1", "b1"), ["v1"; "v2"]); (("m2", "b2"), ["v3"])] 0 (-1))
  = [mkTopMember "m1" 2].
Proof. reflexivity. Qed.

(** ** Reading the report back *)

(** The repository writes the report and never reads it; the reader below
    is the inverse used to show when the report determines the grouped
    data. It takes the text line by line, the header first, cuts a row at
    its first two commas, removes the brackets and cuts the list at each
    comma followed by a space. *)

Definition newline : ascii := "010"%char.

(** [c in s] *)
Fixpoint has_char (c : ascii) (s : string) : bool :=
  match s with
  | EmptyString => false
  | String c' s' => Ascii.eqb c' c || has_char c s'
  end.

(** The lines of a text, each ended by a newline (a last line may lack
    it). *)
Fixpoint lines (s : string) : list string :=
  match s with
  | EmptyString => []
  | String c t =>
      if Ascii.eqb c newline then EmptyString :: lines t
      else match lines t with
           | [] => [String c EmptyString]
           | l :: ls => String c l :: ls
           end
  end.

(** The text before the first comma and the text after it. *)
Fixpoint split_comma (s : string) : option (string * string) :=
  match s with
  | EmptyString => None
  | String c t =>
      if Ascii.eqb c "," then Some (EmptyString, t)
      else match split_comma t with
           | Some (a, r) => Some (String c a, r)
           | None => None
           end
  end.

(** The text without its closing bracket, which must end it. *)
Fixpoint strip_close (s : string) : option string :=
  match s with
  | EmptyString => None
  | String c t =>
      match t with
      | EmptyString => if Ascii.eqb c "]" then Some EmptyString else None
      | String _ _ => option_map (String c) (strip_close t)
      end
  end.

Definition unbracket (s : string) : option string :=
  match s with
  | String c t => if Ascii.eqb c "[" then strip_close t else None
  | EmptyString => None
  end.

Definition cons_head (c : ascii) (l : list string) : list string :=
  match l with
  | [] => [String c EmptyString]
  | x :: xs => String c x :: xs
  end.

(** [s.split(", ")] *)
Fixpoint split_sep (s : string) : list string :=
  match s with
  | EmptyString => [EmptyString]
  | String c t =>
      match t with
      | EmptyString => [String c EmptyString]
      | String c2 t2 =>
          if Ascii.eqb c "," && Ascii.eqb c2 " "
          then EmptyString :: split_sep t2
          else cons_head c (split_sep t)
      end
  end.

(** The ids of a rendered list; nothing between the brackets is the empty
    list. *)
Definition split_ids (inner : string) : list string :=
  match inner with
  | EmptyString => []
  | _ => split_sep inner
  end.

Definition parse_row (line : string) : option (GroupKey * list string) :=
  match split_comma line with
  | Some (m, rest) =>
      match split_comma rest with
      | Some (b, repr) =>
          match unbracket repr with
          | Some inner => Some ((m, b), split_ids inner)
          | None => None
          end
      | None => None
      end
  | None => None
  end.

Fixpoint parse_rows (ls : list string)
  : option (list (GroupKey * list string)) :=
  match ls with
  | [] => Some []
  | l :: ls' =>
      match parse_row l, parse_rows ls' with
      | Some item, Some items => Some (item :: items)
      | _, _ => None
      end
  end.

Definition parse_output (text : string)
  : option (list (GroupKey * list string)) :=
  match lines text with
  | header :: rows =>
      if String.eqb header "member_id,barcode,visits" then parse_rows rows
      else None
  | [] => None
  end.

(** No comma followed by a space in [s]. *)
Fixpoint no_sep (s : string) : bool :=
  match s with
  | EmptyString => true
  | String c t =>
      match t with
      | EmptyString => true
      | String c2 _ => negb (Ascii.eqb c "," && Ascii.eqb c2 " ") && no_sep t
      end
  end.

(** A member_id or barcode the reader takes whole: no comma, no newline. *)
Definition field_ok (s : string) : bool :=
  negb (has_char "," s) && negb (has_char newline s).

(** A visit id the reader takes whole: no separator, no newline. *)
Definition id_ok (s : string) : bool :=
  no_sep s && negb (has_char newline s).

(** A list that is not rendered as the empty list is: not [[""]]. *)
Definition ids_ok (ids : list string) : bool :=
  forallb id_ok ids
  && match ids with
     | [EmptyString] => false
     | _ => true
     end.

Definition item_ok (item : GroupKey * list string) : bool :=
  field_ok (fst (fst item)) && field_ok (snd (fst item))
  && ids_ok (snd item).

Example parse_output_example :
  parse_output
    ("member_id,barcode,visits" ++ String newline ""
     ++ "m1,b1,[v1, v2]" ++ String newline ""
     ++ "m2,b2,[]" ++ String newline "")
  = Some [(("m1", "b1"), ["v1"; "v2"]); (("m2", "b2"), [])].
Proof. reflexivity. Qed.

Lemma has_char_app c a b :
  has_char c (a ++ b) = has_char c a || has_char c b.
Proof.
  induction a as [|x a IH]; simpl; [reflexivity|].
  now rewrite IH, orb_assoc.
Qed.

Lemma lines_app x r :
  has_char newline x = false ->
  lines (x ++ String newline r) = x :: lines r.
Proof.
  induction x as [|c x IH]; cbn [has_char append lines]; intros Hx.
  - now rewrite Ascii.eqb_refl.
  - apply orb_false_elim in Hx as [Hc Hx]. rewrite Hc, (IH Hx).
    reflexivity.
Qed.

Lemma split_comma_app x r :
  has_char "," x = false ->
  split_comma (x ++ String "," r) = Some (x, r).
Proof.
  induction x as [|c x IH]; cbn [has_char append split_comma]; intros Hx.
  - reflexivity.
  - apply orb_false_elim in Hx as [Hc Hx]. rewrite Hc, (IH Hx).
    reflexivity.
Qed.

Lemma strip_close_app inner :
  strip_close (inner ++ "]") = Some inner.
Proof.
  induction inner as [|c inner IH]; [reflexivity|].
  cbn [append strip_close]. rewrite IH.
  now destruct inner.
Qed.

Lemma split_sep_cons2 c c2 t :
  split_sep (String c (String c2 t))
  = if Ascii.eqb c "," && Ascii.eqb c2 " " then EmptyString :: split_sep t
    else cons_head c (split_sep (String c2 t)).
Proof. reflexivity. Qed.

Lemma no_sep_cons2 c c2 t :
  no_sep (String c (String c2 t))
  = negb (Ascii.eqb c "," && Ascii.eqb c2 " ") && no_sep (String c2 t).
Proof. reflexivity. Qed.

Lemma split_sep_one x : no_sep x = true -> split_sep x = [x].
Proof.
  induction x as [|c x IH]; [reflexivity|].
  destruct x as [|c2 x]; [reflexivity|].
  rewrite no_sep_cons2, split_sep_cons2. intros Hx.
  apply andb_prop in Hx as [Hc Hx].
  apply negb_true_iff in Hc. rewrite Hc, (IH Hx). reflexivity.
Qed.

Lemma split_sep_app x r :
  no_sep x = true ->
  split_sep (x ++ ", " ++ r) = x :: split_sep r.
Proof.
  induction x as [|c x IH]; [reflexivity|].
  destruct x as [|c2 x].
  - intros _.
    change (String c "" ++ ", " ++ r) with (String c (String "," (" " ++ r))).
    rewrite split_sep_cons2.
    replace (Ascii.eqb c "," && Ascii.eqb "," " ") with false
      by (now rewrite andb_false_r).
    change (String "," (" " ++ r)) with ("" ++ ", " ++ r).
    now rewrite (IH eq_refl).
  - rewrite no_sep_cons2. intros Hx. apply andb_prop in Hx as [Hc Hx].
    apply negb_true_iff in Hc.
    change (String c (String c2 x) ++ ", " ++ r)
      with (String c (String c2 (x ++ ", " ++ r))).
    rewrite split_sep_cons2, Hc.
    change (String c2 (x ++ ", " ++ r)) with (String c2 x ++ ", " ++ r).
    now rewrite (IH Hx).
Qed.

Lemma split_sep_join x l :
  forallb no_sep (x :: l) = true ->
  split_sep (Py.join ", " (x :: l)) = x :: l.
Proof.
  revert x. induction l as [|y l IH]; intros x Hall;
    cbn [forallb] in Hall; apply andb_prop in Hall as [Hx Hl].
  - now apply split_sep_one.
  - change (Py.join ", " (x :: y :: l))
      with (x ++ ", " ++ Py.join ", " (y :: l)).
    rewrite (split_sep_app x _ Hx). f_equal. now apply IH.
Qed.

Lemma join_empty x l : Py.join ", " (x :: l) = "" -> x = "" /\ l = [].
Proof.
  destruct l as [|y l]; cbn [Py.join].
  - now intros ->.
  - destruct x; discriminate.
Qed.

Lemma split_ids_join ids :
  forallb no_sep ids = true -> ids <> [""] ->
  split_ids (Py.join ", " ids) = ids.
Proof.
  intros Hall Hne. destruct ids as [|x l]; [reflexivity|].
  unfold split_ids.
  destruct (Py.join ", " (x :: l)) eqn:E.
  - apply join_empty in E as [-> ->]. congruence.
  - rewrite <- E. now apply split_sep_join.
Qed.

Lemma has_char_join c ids :
  has_char c ", " = false ->
  forallb (fun s => negb (has_char c s)) ids = true ->
  has_char c (Py.join ", " ids) = false.
Proof.
  intros Hsep. induction ids as [|x l IH]; [reflexivity|].
  cbn [forallb]. intros Hall. apply andb_prop in Hall as [Hx Hl].
  apply negb_true_iff in Hx. destruct l as [|y l]; [exact Hx|].
  change (Py.join ", " (x :: y :: l))
    with (x ++ ", " ++ Py.join ", " (y :: l)).
  now rewrite !has_char_app, Hx, Hsep, (IH Hl).
Qed.

(** A row without its newline. *)
Definition row_body (item : GroupKey * list string) : string :=
  fst (fst item) ++ "," ++ snd (fst item) ++ ","
  ++ "[" ++ Py.join ", " (snd item) ++ "]".

Lemma row_line_body item :
  row_line item = row_body item ++ String newline "".
Proof.
  unfold row_line, output_line, row_body, newline.
  now rewrite !str_app_assoc.
Qed.

Lemma forallb_and {A : Type} (p q : A -> bool) l :
  forallb (fun x => p x && q x) l = forallb p l && forallb q l.
Proof.
  induction l as [|x l IH]; [reflexivity|]. cbn [forallb]. rewrite IH.
  destruct (p x), (q x), (forallb p l); reflexivity.
Qed.

Lemma item_ok_ids item :
  item_ok item = true ->
  forallb no_sep (snd item) = true
  /\ forallb (fun s => negb (has_char newline s)) (snd item) = true
  /\ snd item <> [""].
Proof.
  unfold item_ok, ids_ok, id_ok. intros H.
  apply andb_prop in H as [_ H]. apply andb_prop in H as [Hall Hne].
  rewrite forallb_and in Hall. apply andb_prop in Hall as [H1 H2].
  repeat split; try assumption.
  intros E. rewrite E in Hne. discriminate.
Qed.

Lemma row_body_no_newline item :
  item_ok item = true -> has_char newline (row_body item) = false.
Proof.
  intros Hok. destruct (item_ok_ids item Hok) as (_ & Hnl & _).
  unfold item_ok, field_ok in Hok.
  apply andb_prop in Hok as [Hok _]. apply andb_prop in Hok as [Hm Hb].
  apply andb_prop in Hm as [_ Hm]. apply andb_prop in Hb as [_ Hb].
  apply negb_true_iff in Hm, Hb.
  unfold row_body. rewrite !has_char_app, Hm, Hb.
  now rewrite (has_char_join newline (snd item) eq_refl Hnl).
Qed.

Lemma parse_row_body item :
  item_ok item = true -> parse_row (row_body item) = Some item.
Proof.
  intros Hok. destruct (item_ok_ids item Hok) as (Hsep & _ & Hne).
  unfold item_ok, field_ok in Hok.
  apply andb_prop in Hok as [Hok _]. apply andb_prop in Hok as [Hm Hb].
  apply andb_prop in Hm as [Hm _]. apply andb_prop in Hb as [Hb _].
  apply negb_true_iff in Hm, Hb.
  destruct item as [[m b] ids]; cbn [fst snd] in *.
  unfold parse_row, row_body; cbn [fst snd].
  change (m ++ "," ++ b ++ "," ++ "[" ++ Py.join ", " ids ++ "]")
    with (m ++ String ","
            (b ++ String "," (String "[" (Py.join ", " ids ++ "]")))).
  rewrite (split_comma_app m _ Hm), (split_comma_app b _ Hb).
  cbn [unbracket Ascii.eqb Bool.eqb]. rewrite strip_close_app.
  now rewrite (split_ids_join ids Hsep Hne).
Qed.

Lemma lines_rows rows :
  forallb item_ok rows = true ->
  lines (concat_all (map row_line rows)) = map row_body rows.
Proof.
  induction rows as [|item rows IH]; [reflexivity|].
  cbn [forallb map concat_all fold_right]. intros Hall.
  apply andb_prop in Hall as [Hok Hall].
  rewrite row_line_body, str_app_assoc.
  change (String newline "" ++ fold_right append "" (map row_line rows))
    with (String newline (concat_all (map row_line rows))).
  rewrite (lines_app _ _ (row_body_no_newline item Hok)).
  now rewrite (IH Hall).
Qed.

Lemma parse_rows_bodies rows :
  forallb item_ok rows = true ->
  parse_rows (map row_body rows) = Some rows.
Proof.
  induction rows as [|item rows IH]; [reflexivity|].
  cbn [forallb map parse_rows]. intros Hall.
  apply andb_prop in Hall as [Hok Hall].
  now rewrite (parse_row_body item Hok), (IH Hall).
Qed.

(** The reader recovers the rows of a report whose fields it can take
    whole. *)
Lemma parse_output_rows rows :
  forallb item_ok rows = true ->
  parse_output
    (("member_id,barcode,visits" ++ String "010" "")
     ++ concat_all (map row_line rows))
  = Some rows.
Proof.
  intros Hall. unfold parse_output.
  rewrite str_app_assoc.
  change (String "010" "" ++ concat_all (map row_line rows))
    with (String newline (concat_all (map row_line rows))).
  rewrite (lines_app "member_id,barcode,visits" _ eq_refl).
  rewrite (lines_rows rows Hall). cbn [String.eqb].
  change (String.eqb "member_id,barcode,visits" "member_id,barcode,visits")
    with true.
  now apply parse_rows_bodies.
Qed.

Lemma perm_get (g g' : GroupedVisits) k :
  Py.wf g -> Permutation g' g -> Py.get g' k = Py.get g k.
Proof.
  intros Hwf Hp.
  assert (Hwf' : Py.wf g').
  { unfold Py.wf, Py.keys. eapply Permutation_NoDup; [|exact Hwf].
    apply Permutation_map, Permutation_sym, Hp. }
  destruct (Py.get g k) as [l|] eqn:E.
  - apply get_Some_In in E. apply (In_get g' k l Hwf').
    eapply Permutation_in; [apply Permutation_sym, Hp | exact E].
  - destruct (Py.get g' k) as [l'|] eqn:E'; [|reflexivity].
    apply get_Some_In in E'.
    rewrite (In_get g k l' Hwf) in E; [discriminate|].
    eapply Permutation_in; [exact Hp | exact E'].
Qed.

(** C4, as stated: two grouped data with different keys have the same
    report, and so have two with different lists of visit ids; hence no
    reader of the report recovers the keys of every grouped data. *)
Lemma C4_report_ambiguous :
  let g1 : GroupedVisits := [(("a,b", "c"), ["v"])] in
  let g2 : GroupedVisits := [(("a", "b,c"), ["v"])] in
  write_output g1 = write_output g2
  /\ write_output [(("m", "b"), ["x, y"])]
     = write_output [(("m", "b"), ["x"; "y"])]
  /\ write_output [(("m", "b"), [""])] = write_output [(("m", "b"), [])]
  /\ ~ (exists reparse : string -> option (list (GroupKey * list string)),
          forall g, Py.wf g ->
            exists text rows,
              write_output g = Ok text /\ reparse text = Some rows
              /\ Permutation rows g).
Proof.
  intros g1 g2. repeat (split; [reflexivity|]).
  intros [reparse Hre].
  assert (Hwf1 : Py.wf g1) by (repeat constructor; cbn [In]; tauto).
  assert (Hwf2 : Py.wf g2) by (repeat constructor; cbn [In]; tauto).
  destruct (Hre g1 Hwf1) as (t1 & r1 & Hw1 & Hp1 & Hperm1).
  destruct (Hre g2 Hwf2) as (t2 & r2 & Hw2 & Hp2 & Hperm2).
  change (write_output g2) with (write_output g1) in Hw2.
  rewrite Hw1 in Hw2. injection Hw2 as <-.
  rewrite Hp1 in Hp2. injection Hp2 as <-.
  apply Permutation_sym in Hperm1.
  pose proof (Permutation_trans Hperm1 Hperm2) as Hp.
  apply Permutation_length_1 in Hp. discriminate.
Qed.

(** The member_id with a comma comes from a quoted field of members.csv. *)
Example comma_in_member_id_reaches_report :
  exists members,
    load_members "members.csv" [row2 "member_id" "a,b" "barcode" "c"]
    = Ok members
    /\ fst (validate_and_group_visits members [mkVisit "v" "c" None])
       = [(("a,b", "c"), ["v"])].
Proof. eexists. split; reflexivity. Qed.

(** C4 (amended): when no member_id or barcode of the grouped data holds a
    comma or a newline, no visit id holds a newline or a comma followed by
    a space, and no list of visit ids is the list of one empty id, reading
    back the report of [write_output] gives the items of the grouped data:
    the same keys and, under each key, the same visit ids in the same
    order. *)
Theorem C4_round_trip g :
  Py.wf g -> forallb item_ok g = true ->
  exists text rows,
    write_output g = Ok text
    /\ parse_output text = Some rows
    /\ Permutation rows g
    /\ (forall k, Py.get rows k = Py.get g k).
Proof.
  intros Hwf Hok.
  pose proof (sorted_items_permutation g Hwf) as Hperm.
  eexists. exists (sorted_items g). split; [apply write_output_rows|].
  split; [|split].
  - apply parse_output_rows. apply forallb_forall. intros item Hin.
    rewrite forallb_forall in Hok. apply Hok.
    eapply Permutation_in; [exact Hperm | exact Hin].
  - exact Hperm.
  - intros k. now apply perm_get.
Qed.

Lemma C4_round_trip_witness :
  let g : GroupedVisits :=
    [(("m2", "b2"), ["v3"]); (("m1", "b1"), ["v1"; "v2"])] in
  exists text rows,
    write_output g = Ok text
    /\ parse_output text = Some rows
    /\ Permutation rows g
    /\ (forall k, Py.get rows k = Py.get g k).
Proof.
  intros g. apply (C4_round_trip g).
  - unfold Py.wf; cbn [Py.keys map fst].
    repeat constructor; cbn [In]; intuition discriminate.
  - reflexivity.
Defined.

(** * Further properties of the code *)

(** ** [io.py] *)

(** [read_csv_dicts]: each row of the reader becomes the dict built by the
    comprehension [{key: (value or "") for key, value in row.items()}]. *)
Definition normalize_row (row : Row) : Py.dict string string :=
  fold_left (fun d kv => Py.set d (fst kv) (Py.or_empty (snd kv))) row [].

Definition read_csv_dicts (rows : list Row) : list (Py.dict string string) :=
  map normalize_row rows.

(** A row of strings seen as a row of the reader. *)
Definition as_row (d : Py.dict string string) : Row :=
  map (fun kv => (fst kv, Some (snd kv))) d.

(** The third field [write_output] passes for an item. *)
Definition visits_repr (visit_ids : list string) : string :=
  "[" ++ Py.join ", " visit_ids ++ "]".

Definition csv_row (item : GroupKey * list string)
  : string * string * string :=
  (fst (fst item), snd (fst item), visits_repr (snd item)).

Lemma write_output_csv_app rows1 rows2 :
  write_output_csv (rows1 ++ rows2)
  = write_output_csv rows1 ++ write_output_csv rows2.
Proof.
  induction rows1 as [|[[m b] v] rows1 IH]; [reflexivity|].
  cbn [app write_output_csv]. now rewrite IH, !str_app_assoc.
Qed.

Lemma write_output_csv_rows items :
  write_output_csv (map csv_row items) = concat_all (map row_line items).
Proof.
  induction items as [|[[m b] ids] items IH]; [reflexivity|].
  cbn [map csv_row write_output_csv concat_all fold_right fst snd].
  fold (concat_all (map row_line items)). now rewrite IH.
Qed.

(** X1: the file of [write_output] is the header line followed by what
    [write_output_csv] writes for the rows of the sorted keys, the third
    field being the bracketed list; and [write_output_csv] writes the rows
    of two batches one after the other. *)
Theorem X1_write_output_csv g :
  write_output g
  = Ok (("member_id,barcode,visits" ++ String "010" "")
        ++ write_output_csv (map csv_row (sorted_items g)))
  /\ (forall rows1 rows2,
        write_output_csv (rows1 ++ rows2)
        = write_output_csv rows1 ++ write_output_csv rows2).
Proof.
  split; [|apply write_output_csv_app].
  now rewrite write_output_csv_rows, write_output_rows.
Qed.

Lemma get_fold_set (row : Row) (d : Py.dict string string) col :
  Py.wf row ->
  Py.get (fold_left (fun d kv => Py.set d (fst kv) (Py.or_empty (snd kv)))
            row d) col
  = match Py.get row col with
    | Some v => Some (Py.or_empty v)
    | None => Py.get d col
    end.
Proof.
  unfold Py.wf, Py.keys. revert d.
  induction row as [|[k v] row IH]; intros d Hnd; cbn [fold_left Py.get];
    [reflexivity|].
  inversion Hnd as [|? ? Hni Hnd']; subst. cbn [fst snd].
  rewrite (IH _ Hnd').
  destruct (Py.keyb_spec k col) as [->|Hne].
  - apply get_None_notin in Hni. rewrite Hni. apply get_set_same.
  - destruct (Py.get row col); [reflexivity|]. now apply get_set_other.
Qed.

Lemma get_as_row d col :
  Py.get (as_row d) col = option_map Some (Py.get d col).
Proof.
  unfold as_row. induction d as [|[k v] d IH]; cbn [map Py.get fst snd];
    [reflexivity|].
  now destruct (Py.keyb k col).
Qed.

Lemma field_normalize_row row col :
  Py.wf row -> field (as_row (normalize_row row)) col = field row col.
Proof.
  intros Hwf. unfold field, row_get, normalize_row.
  rewrite get_as_row, (get_fold_set row [] col Hwf). cbn [Py.get].
  destruct (Py.get row col) as [[s|]|]; cbn [option_map Py.or_empty];
    try reflexivity.
  now destruct s.
Qed.

Lemma members_fold_ext (f : Row -> Row) rows d :
  (forall row, In row rows ->
     member_of (f row) = member_of row
     /\ barcode_of (f row) = barcode_of row) ->
  members_fold (map f rows) d = members_fold rows d.
Proof.
  revert d. induction rows as [|row rows IH]; intros d Hf;
    cbn [map members_fold]; [reflexivity|].
  destruct (Hf row (or_introl eq_refl)) as [Hm Hb].
  unfold valid_member_row. rewrite Hm, Hb.
  destruct (_ && _); apply IH; intros r Hr; apply Hf; now right.
Qed.

(** X2: a row of [read_csv_dicts] has the columns of the reader's row, a
    missing field being the empty string and never [None]; the loaders
    return the same mapping and the same visits on the rows of
    [read_csv_dicts] as on the rows of the reader. *)
Theorem X2_read_csv_dicts name rows :
  Forall Py.wf rows ->
  Forall2
    (fun row d =>
       forall col,
         Py.get d col = option_map Py.or_empty (Py.get row col))
    rows (read_csv_dicts rows)
  /\ load_members name (map as_row (read_csv_dicts rows))
     = load_members name rows
  /\ load_visits name (map as_row (read_csv_dicts rows))
     = load_visits name rows.
Proof.
  intros Hwf. unfold read_csv_dicts. split; [|split].
  - induction Hwf as [|row rows Hrow Hrows IH]; cbn [map]; constructor;
      [|assumption].
    intros col. unfold normalize_row. rewrite (get_fold_set row [] col Hrow).
    now destruct (Py.get row col).
  - rewrite !load_members_fold, map_map. f_equal.
    apply (members_fold_ext (fun row => as_row (normalize_row row))).
    intros row Hin. rewrite Forall_forall in Hwf.
    unfold member_of, barcode_of.
    now rewrite !field_normalize_row by auto.
  - rewrite !load_visits_map, map_map.
    induction Hwf as [|row rows Hrow Hrows IH]; [reflexivity|].
    cbn [map filter].
    replace (has_visit_id (as_row (normalize_row row)))
      with (has_visit_id row)
      by (unfold has_visit_id; now rewrite field_normalize_row).
    destruct (has_visit_id row); cbn [map]; [|exact IH].
    f_equal; [|exact IH].
    unfold visit_of_row. now rewrite !field_normalize_row.
Qed.

Lemma X2_read_csv_dicts_witness :
  load_members "members.csv"
    (map as_row
       (read_csv_dicts
          [[("member_id", Some "m1"); ("barcode", Some "b1")];
           [("member_id", Some "m2"); ("barcode", None)]]))
  = load_members "members.csv"
      [[("member_id", Some "m1"); ("barcode", Some "b1")];
       [("member_id", Some "m2"); ("barcode", None)]].
Proof.
  apply X2_read_csv_dicts.
  repeat constructor; cbn [In]; intuition discriminate.
Defined.

(** ** The warnings of the loaders *)

(** The warnings the loop of [load_members] logs from line [line_no] on,
    started on the mapping [d]. *)
Fixpoint members_log (name : string) (line_no : Z) (rows : list Row)
    (d : Members) : Log :=
  match rows with
  | [] => []
  | row :: rows' =>
      if negb (valid_member_row row) then
        InvalidMemberRow name line_no row
        :: members_log name (line_no + 1) rows' d
      else
        match Py.get d (barcode_of row) with
        | Some existing =>
            DuplicateBarcode name line_no (barcode_of row) existing
              (member_of row)
            :: members_log name (line_no + 1) rows' d
        | None =>
            members_log name (line_no + 1) rows'
              (Py.set d (barcode_of row) (member_of row))
        end
  end.

Lemma load_members_loop_log name rows :
  forall line_no d log,
    load_members_loop name line_no rows d log
    = Ok (members_fold rows d, (log ++ members_log name line_no rows d)%list).
Proof.
  induction rows as [|row rows IH]; intros line_no d log;
    cbn [load_members_loop members_fold members_log].
  - now rewrite app_nil_r.
  - fold (field row "member_id") (field row "barcode").
    fold (member_of row) (barcode_of row). unfold valid_member_row.
    destruct (Py.truthy (member_of row)); cbn [negb orb andb];
      [|now rewrite IH, <- app_assoc].
    destruct (Py.truthy (barcode_of row)); cbn [negb orb andb];
      [|now rewrite IH, <- app_assoc].
    unfold Py.mem, getitem.
    destruct (Py.get d (barcode_of row)); cbn [bind negb].
    + now rewrite IH, <- app_assoc.
    + now rewrite IH.
Qed.

Lemma length_set_new {K V : Type} `{Py.EqKey K} (d : Py.dict K V) k v :
  Py.get d k = None -> List.length (Py.set d k v) = S (List.length d).
Proof.
  induction d as [|[k' v'] d IH]; cbn [Py.get Py.set]; [reflexivity|].
  destruct (Py.keyb k' k); [discriminate|].
  intros E. cbn [List.length]. now rewrite IH.
Qed.

Lemma members_accounting name rows :
  forall line_no d,
    (List.length (members_fold rows d)
     + List.length (members_log name line_no rows d)
     = List.length d + List.length rows)%nat.
Proof.
  induction rows as [|row rows IH]; intros line_no d;
    cbn [members_fold members_log List.length]; [lia|].
  unfold Py.mem.
  destruct (valid_member_row row); cbn [negb andb].
  - destruct (Py.get d (barcode_of row)) eqn:E; cbn [negb List.length].
    + specialize (IH (line_no + 1) d). lia.
    + specialize (IH (line_no + 1)
                    (Py.set d (barcode_of row) (member_of row))).
      rewrite (length_set_new d _ _ E) in IH. lia.
  - cbn [List.length]. specialize (IH (line_no + 1) d). lia.
Qed.

(** X4: [load_members] raises nothing, and every row is either entered in
    the mapping or logged once: the entries of the mapping and the
    warnings are as many as the rows. *)
Theorem X4_load_members_accounting name rows :
  exists m log,
    load_members_run name rows = Ok (m, log)
    /\ load_members name rows = Ok m
    /\ (List.length m + List.length log = List.length rows)%nat.
Proof.
  exists (members_fold rows []), (members_log name 2 rows []).
  unfold load_members, load_members_run.
  rewrite load_members_loop_log. cbn [app bind fst].
  repeat split. apply (members_accounting name rows 2 []).
Qed.

(** What a warning of [load_members] says about the rows: the file name,
    the line of the row (the header being line 1), and for a duplicate the
    barcode and member_id of the row and the member_id the mapping keeps. *)
Definition member_warning_ok (name : string) (first_line : Z)
    (rows : list Row) (final : Members) (r : LogRecord) : Prop :=
  match r with
  | InvalidMemberRow f l row =>
      f = name /\ first_line <= l
      /\ nth_error rows (Z.to_nat (l - first_line)) = Some row
      /\ valid_member_row row = false
  | DuplicateBarcode f l b existing new =>
      f = name /\ first_line <= l
      /\ (exists row,
            nth_error rows (Z.to_nat (l - first_line)) = Some row
            /\ valid_member_row row = true
            /\ barcode_of row = b /\ member_of row = new)
      /\ Py.get final b = Some existing
  | _ => False
  end.

Lemma member_warning_ok_shift name n row rows final r :
  member_warning_ok name (n + 1) rows final r ->
  member_warning_ok name n (row :: rows) final r.
Proof.
  assert (Hnth : forall l, n + 1 <= l ->
            Z.to_nat (l - n) = S (Z.to_nat (l - (n + 1)))) by (intros; lia).
  destruct r as [f l r0|f l b e m|? ? ?|?|? ?]; cbn [member_warning_ok];
    try tauto.
  - intros (Hf & Hl & Hn & Hv). rewrite (Hnth l Hl). cbn [nth_error].
    repeat split; [assumption | lia | assumption | assumption].
  - intros (Hf & Hl & (r0 & Hn & Hr) & Hg). rewrite (Hnth l Hl).
    cbn [nth_error].
    repeat split; [assumption | lia | now exists r0 | assumption].
Qed.

Lemma members_log_ok name rows :
  forall line_no d,
    Forall (member_warning_ok name line_no rows (members_fold rows d))
      (members_log name line_no rows d).
Proof.
  induction rows as [|row rows IH]; intros line_no d;
    cbn [members_log members_fold]; [constructor|].
  unfold Py.mem.
  destruct (valid_member_row row) eqn:Hv; cbn [negb andb].
  - destruct (Py.get d (barcode_of row)) as [e|] eqn:E; cbn [negb].
    + constructor.
      * cbn [member_warning_ok]. rewrite Z.sub_diag. cbn [Z.to_nat nth_error].
        repeat split; [lia | now exists row |].
        now rewrite members_fold_lookup, E.
      * eapply Forall_impl; [|apply IH].
        intros r. apply member_warning_ok_shift.
    + eapply Forall_impl; [|apply IH].
      intros r. apply member_warning_ok_shift.
  - constructor.
    + cbn [member_warning_ok]. rewrite Z.sub_diag. cbn [Z.to_nat nth_error].
      repeat split; [lia | assumption].
    + eapply Forall_impl; [|apply IH].
      intros r. apply member_warning_ok_shift.
Qed.

(** X5: every warning of [load_members] names the file and the line of the
    row it is about, counted from 2; a missing-field warning is about a
    row that lacks a field, and a duplicate warning gives the barcode and
    member_id of its row together with the member_id the returned mapping
    holds for that barcode. *)
Theorem X5_load_members_warnings name rows :
  exists m log,
    load_members_run name rows = Ok (m, log)
    /\ Forall (member_warning_ok name 2 rows m) log.
Proof.
  exists (members_fold rows []), (members_log name 2 rows []).
  unfold load_members_run. rewrite load_members_loop_log. cbn [app].
  split; [reflexivity | apply members_log_ok].
Qed.

Lemma Forall_set {K V : Type} `{Py.EqKey K} (P : K * V -> Prop)
    (d : Py.dict K V) k v :
  Forall P d -> P (k, v) -> Forall P (Py.set d k v).
Proof.
  intros Hd Hkv. induction d as [|[k' v'] d IH]; cbn [Py.set].
  - now constructor.
  - inversion Hd; subst.
    destruct (Py.keyb_spec k' k) as [->|Hne]; constructor; auto.
Qed.

Lemma members_fold_Forall (P : string * string -> Prop) rows d :
  (forall row, valid_member_row row = true ->
     P (barcode_of row, member_of row)) ->
  Forall P d -> Forall P (members_fold rows d).
Proof.
  intros HP. revert d.
  induction rows as [|row rows IH]; intros d Hd; cbn [members_fold];
    [assumption|].
  destruct (valid_member_row row) eqn:Hv; cbn [andb]; [|now apply IH].
  destruct (negb _); apply IH; [|assumption].
  apply Forall_set; [assumption | now apply HP].
Qed.

(** X3: the mapping of [load_members] holds each barcode once, and its
    barcodes and member_ids are non-empty and trimmed. *)
Theorem X3_load_members_mapping name rows :
  exists m,
    load_members name rows = Ok m
    /\ Py.wf m
    /\ Forall
         (fun kv =>
            fst kv <> "" /\ snd kv <> ""
            /\ Py.strip (fst kv) = fst kv /\ Py.strip (snd kv) = snd kv)
         m.
Proof.
  exists (members_fold rows []). split; [apply load_members_fold|].
  split; [apply members_fold_wf; constructor|].
  apply members_fold_Forall; [|constructor].
  intros row Hv. cbn [fst snd]. unfold valid_member_row in Hv.
  apply andb_prop in Hv as [Hm Hb].
  repeat split.
  - intros E. rewrite E in Hb. discriminate.
  - intros E. rewrite E in Hm. discriminate.
  - apply strip_idem.
  - apply strip_idem.
Qed.

(** The warnings the loop of [load_visits] logs from line [line_no] on. *)
Fixpoint visits_log (name : string) (line_no : Z) (rows : list Row) : Log :=
  match rows with
  | [] => []
  | row :: rows' =>
      if has_visit_id row then visits_log name (line_no + 1) rows'
      else InvalidVisitRow name line_no row
           :: visits_log name (line_no + 1) rows'
  end.

Lemma load_visits_loop_snd name rows :
  forall line_no visits log,
    snd (load_visits_loop name line_no rows visits log)
    = (log ++ visits_log name line_no rows)%list.
Proof.
  induction rows as [|row rows IH]; intros line_no visits log;
    cbn [load_visits_loop visits_log].
  - now rewrite app_nil_r.
  - fold (field row "visit_id") (field row "barcode")
      (field row "reservation_id").
    unfold has_visit_id. rewrite <- truthy_eqb.
    destruct (Py.truthy (Py.strip (field row "visit_id"))); cbn [negb].
    + apply IH.
    + now rewrite IH, <- app_assoc.
Qed.

Definition visit_warning_ok (name : string) (first_line : Z)
    (rows : list Row) (r : LogRecord) : Prop :=
  match r with
  | InvalidVisitRow f l row =>
      f = name /\ first_line <= l
      /\ nth_error rows (Z.to_nat (l - first_line)) = Some row
      /\ Py.blank (field row "visit_id") = true
  | _ => False
  end.

Lemma visits_log_ok name rows :
  forall line_no,
    Forall (visit_warning_ok name line_no rows)
      (visits_log name line_no rows)
    /\ (List.length (filter has_visit_id rows)
        + List.length (visits_log name line_no rows)
        = List.length rows)%nat.
Proof.
  induction rows as [|row rows IH]; intros line_no;
    cbn [visits_log filter List.length]; [split; [constructor | lia]|].
  destruct (IH (line_no + 1)) as [Hall Hlen].
  assert (Hshift : Forall (visit_warning_ok name line_no (row :: rows))
                     (visits_log name (line_no + 1) rows)).
  { eapply Forall_impl; [|exact Hall].
    intros [? ? ?|? ? ? ? ?|f l r0|?|? ?]; cbn [visit_warning_ok];
      try tauto.
    intros (Hf & Hl & Hn & Hb).
    replace (Z.to_nat (l - line_no))
      with (S (Z.to_nat (l - (line_no + 1)))) by lia.
    cbn [nth_error]. repeat split; [assumption | lia | assumption..]. }
  destruct (has_visit_id row) eqn:Hv; cbn [List.length].
  - split; [assumption | lia].
  - split; [|lia]. constructor; [|assumption].
    cbn [visit_warning_ok]. rewrite Z.sub_diag. cbn [Z.to_nat nth_error].
    repeat split; [lia|].
    unfold has_visit_id in Hv. rewrite <- truthy_eqb, truthy_strip in Hv.
    now destruct (Py.blank _).
Qed.

(** X6: every row of visits.csv gives either a record or one warning, so
    the records and the warnings of [load_visits] are as many as the rows;
    each warning names the file and the line of a row whose visit_id is
    missing, empty or blank. A row is never dropped for its barcode. *)
Theorem X6_load_visits_accounting name rows :
  let visits := fst (load_visits_run name rows) in
  let log := snd (load_visits_run name rows) in
  visits = load_visits name rows
  /\ (List.length visits + List.length log = List.length rows)%nat
  /\ Forall (visit_warning_ok name 2 rows) log
  /\ (forall row, In row rows ->
        Py.blank (field row "visit_id") = false ->
        exists v, In v visits
                  /\ visit_id v = Py.strip (field row "visit_id")
                  /\ barcode v = Py.strip (field row "barcode")).
Proof.
  cbv zeta.
  change (fst (load_visits_run name rows)) with (load_visits name rows).
  assert (Hlog : snd (load_visits_run name rows) = visits_log name 2 rows)
    by (unfold load_visits_run; now rewrite load_visits_loop_snd).
  rewrite Hlog, load_visits_map.
  destruct (visits_log_ok name rows 2) as [Hall Hlen].
  split; [reflexivity|]. split; [now rewrite length_map|].
  split; [assumption|].
  intros row Hin Hb. exists (visit_of_row row). split; [|split; reflexivity].
  apply in_map, filter_In. split; [assumption|].
  unfold has_visit_id. now rewrite <- truthy_eqb, truthy_strip, Hb.
Qed.

Lemma X6_load_visits_accounting_witness :
  exists v,
    In v (fst (load_visits_run "visits.csv"
                 [row3 "visit_id" "v1" "barcode" "" "reservation_id" "r"]))
    /\ visit_id v = "v1" /\ barcode v = "".
Proof.
  destruct (X6_load_visits_accounting "visits.csv"
              [row3 "visit_id" "v1" "barcode" "" "reservation_id" "r"])
    as (_ & _ & _ & Hkeep).
  exact (Hkeep (row3 "visit_id" "v1" "barcode" "" "reservation_id" "r")
           (or_introl eq_refl) eq_refl).
Defined.

(** ** More on the join *)

(** The warning for a visit that fails a check: the missing barcode is
    tested first. *)
Definition reject_record (v : Visit) : LogRecord :=
  if Py.truthy (barcode v) then UnknownBarcode (visit_id v) (barcode v)
  else MissingBarcode (visit_id v).

Lemma validate_step_log members st v :
  vlog (validate_step members st v)
  = if passed members v then vlog st
    else (vlog st ++ [reject_record v])%list.
Proof.
  unfold validate_step, passed, reject_record, truthy_opt.
  destruct (Py.truthy (barcode v)); cbn [negb andb]; [|reflexivity].
  destruct (Py.get members (barcode v)) as [m|]; [|reflexivity].
  destruct (Py.truthy m); cbn [negb]; [|reflexivity].
  now destruct (reservation_id v).
Qed.

Lemma validate_fold_log members visits st :
  vlog (fold_left (validate_step members) visits st)
  = (vlog st
     ++ map reject_record
          (filter (fun v => negb (passed members v)) visits))%list.
Proof.
  revert st. induction visits as [|v visits IH]; intros st;
    cbn [fold_left filter map].
  - now rewrite app_nil_r.
  - rewrite IH, validate_step_log.
    destruct (passed members v); cbn [negb map]; [reflexivity|].
    now rewrite <- app_assoc.
Qed.

Lemma filter_length_split {A : Type} (p : A -> bool) l :
  (List.length (filter p l) + List.length (filter (fun x => negb (p x)) l)
   = List.length l)%nat.
Proof.
  induction l as [|x l IH]; [reflexivity|]. cbn [filter].
  destruct (p x); cbn [negb List.length]; lia.
Qed.

(** X7: [validate_and_group_visits] logs one warning for each visit it
    rejects, in input order, and none for a visit it keeps; the warning is
    the one for a missing barcode when the barcode is empty and the one
    for an unknown barcode otherwise. Every visit is either grouped or
    logged. *)
Theorem X7_validate_warnings members visits :
  let st := validate_and_group_visits_run members visits in
  vlog st
  = map reject_record (filter (fun v => negb (passed members v)) visits)
  /\ sum_lengths (grouped st) + Z.of_nat (List.length (vlog st))
     = Z.of_nat (List.length visits).
Proof.
  cbv zeta. unfold validate_and_group_visits_run.
  rewrite validate_fold_log. cbn [vlog app]. split; [reflexivity|].
  destruct (validate_fold_counts members visits (mkVState [] 0 []))
    as [Hs _].
  cbv zeta in Hs. rewrite Hs.
  cbn [grouped sum_lengths fold_right]. rewrite length_map. unfold count.
  pose proof (filter_length_split (passed members) visits). lia.
Qed.

Lemma ids_under_witness members k visits :
  ids_under members k visits <> [] ->
  exists v, In v visits /\ passed members v = true /\ key_of members v = k.
Proof.
  unfold ids_under. intros Hne.
  destruct (filter _ visits) as [|v l] eqn:E; [now elim Hne|].
  assert (Hin : In v (filter
                        (fun v => passed members v
                                  && Py.keyb (key_of members v) k) visits))
    by (rewrite E; now left).
  apply filter_In in Hin as [Hin Hp]. apply andb_prop in Hp as [Hp Hk].
  exists v. repeat split; try assumption.
  now destruct (Py.keyb_spec (key_of members v) k).
Qed.

Lemma passed_key members v :
  passed members v = true ->
  barcode v <> ""
  /\ fst (key_of members v) <> ""
  /\ Py.get members (barcode v) = Some (fst (key_of members v)).
Proof.
  unfold passed, key_of, truthy_opt. intros Hp.
  apply andb_prop in Hp as [Hb Hm]. cbn [fst].
  destruct (Py.get members (barcode v)) as [m|]; [|discriminate].
  cbn [Py.or_empty]. rewrite Hm.
  repeat split.
  - intros E. rewrite E in Hb. discriminate.
  - intros E. rewrite E in Hm. discriminate.
Qed.

Lemma validate_key_facts members visits m b :
  In (m, b) (Py.keys (fst (validate_and_group_visits members visits))) ->
  b <> "" /\ m <> "" /\ Py.get members b = Some m.
Proof.
  intros Hin.
  destruct (Py.get (fst (validate_and_group_visits members visits))
              (m, b)) as [l|] eqn:E.
  - unfold validate_and_group_visits in E; cbn [fst] in E.
    unfold validate_and_group_visits_run in E.
    rewrite validate_fold_lookup in E. cbn [grouped Py.get] in E.
    destruct (ids_under_witness members (m, b) visits)
      as (v & _ & Hp & Hk).
    { intros Hnil. rewrite Hnil in E. discriminate. }
    destruct (passed_key members v Hp) as (Hb & Hm & Hg).
    rewrite Hk in Hm, Hg. cbn [fst] in Hm, Hg.
    assert (Hbv : barcode v = b).
    { unfold key_of in Hk. now injection Hk. }
    rewrite Hbv in Hb, Hg. now repeat split.
  - apply get_None_notin in E. contradiction.
Qed.

(** X8: every key [(member_id, barcode)] of the grouped data has a
    non-empty barcode that the mapping sends to this member_id, itself not
    empty; so a barcode occurs in one key only, and the keys are pairwise
    distinct. *)
Theorem X8_group_keys members visits :
  let g := fst (validate_and_group_visits members visits) in
  Py.wf g
  /\ (forall m b, In (m, b) (Py.keys g) ->
        b <> "" /\ m <> "" /\ Py.get members b = Some m)
  /\ (forall m1 m2 b,
        In (m1, b) (Py.keys g) -> In (m2, b) (Py.keys g) -> m1 = m2).
Proof.
  cbv zeta.
  split; [apply validate_grouped_wf|].
  split; [intros m b; apply validate_key_facts|].
  intros m1 m2 b H1 H2.
  destruct (validate_key_facts members visits m1 b H1) as (_ & _ & G1).
  destruct (validate_key_facts members visits m2 b H2) as (_ & _ & G2).
  congruence.
Qed.

Lemma X8_group_keys_witness :
  "b1" <> "" /\ "m1" <> "" /\ Py.get [("b1", "m1"); ("b2", "m2")] "b1" = Some "m1".
Proof.
  apply (proj1 (proj2 (X8_group_keys [("b1", "m1"); ("b2", "m2")]
                         [mkVisit "v1" "b1" None; mkVisit "v2" "bx" None]))
           "m1" "b1").
  now left.
Defined.

Lemma validate_step_ext m1 m2 st v :
  (forall b, Py.get m1 b = Py.get m2 b) ->
  validate_step m1 st v = validate_step m2 st v.
Proof. intros Hget. unfold validate_step. now rewrite Hget. Qed.

(** X9: [validate_and_group_visits] uses the mapping through lookups only:
    two mappings with the same lookups, such as one mapping filled in two
    different orders, give the same grouped data, count and warnings. *)
Theorem X9_validate_lookups_only (m1 m2 : Members) visits :
  (forall b, Py.get m1 b = Py.get m2 b) ->
  validate_and_group_visits_run m1 visits
  = validate_and_group_visits_run m2 visits
  /\ validate_and_group_visits m1 visits
     = validate_and_group_visits m2 visits.
Proof.
  intros Hget.
  assert (Hrun : validate_and_group_visits_run m1 visits
                 = validate_and_group_visits_run m2 visits).
  { unfold validate_and_group_visits_run.
    generalize (mkVState [] 0 []).
    induction visits as [|v visits IH]; intros st; cbn [fold_left];
      [reflexivity|].
    now rewrite (validate_step_ext m1 m2 st v Hget). }
  split; [exact Hrun|].
  unfold validate_and_group_visits. now rewrite Hrun.
Qed.

Lemma X9_validate_lookups_only_witness :
  validate_and_group_visits [("b1", "m1"); ("b2", "m2")]
    [mkVisit "v1" "b2" None; mkVisit "v2" "b1" None]
  = validate_and_group_visits [("b2", "m2"); ("b1", "m1")]
      [mkVisit "v1" "b2" None; mkVisit "v2" "b1" None].
Proof.
  apply X9_validate_lookups_only.
  intros b. cbn [Py.get].
  change (Py.keyb "b1" b) with (String.eqb "b1" b).
  change (Py.keyb "b2" b) with (String.eqb "b2" b).
  destruct (String.eqb_spec "b1" b) as [E1|H1];
    destruct (String.eqb_spec "b2" b) as [E2|H2];
    try reflexivity.
  rewrite <- E1 in E2. discriminate E2.
Defined.

Lemma count_app {A : Type} (p : A -> bool) l1 l2 :
  count p (l1 ++ l2) = count p l1 + count p l2.
Proof. unfold count. rewrite filter_app, length_app. lia. Qed.

Lemma ids_under_app members k visits1 visits2 :
  ids_under members k (visits1 ++ visits2)
  = (ids_under members k visits1 ++ ids_under members k visits2)%list.
Proof. unfold ids_under. now rewrite filter_app, map_app. Qed.

Lemma validate_lookup members visits k :
  lookup (fst (validate_and_group_visits members visits)) k
  = ids_under members k visits.
Proof.
  unfold lookup, validate_and_group_visits; cbn [fst].
  unfold validate_and_group_visits_run.
  rewrite validate_fold_lookup. cbn [grouped Py.get].
  now destruct (ids_under members k visits).
Qed.

Lemma validate_walk_ins members visits :
  snd (validate_and_group_visits members visits)
  = count (fun v => passed members v && is_walk_in v) visits.
Proof.
  unfold validate_and_group_visits; cbn [snd].
  destruct (validate_fold_counts members visits (mkVState [] 0 []))
    as [_ Hw].
  cbv zeta in Hw. cbn [walk_in_count] in Hw.
  unfold validate_and_group_visits_run. lia.
Qed.

Lemma validate_sum_lengths members visits :
  sum_lengths (fst (validate_and_group_visits members visits))
  = count (passed members) visits.
Proof.
  unfold validate_and_group_visits; cbn [fst].
  destruct (validate_fold_counts members visits (mkVState [] 0 []))
    as [Hs _].
  cbv zeta in Hs. cbn [grouped sum_lengths fold_right] in Hs.
  unfold validate_and_group_visits_run. lia.
Qed.

(** X10: validating two batches of visits in one call gives, under every
    key, the ids of the first batch followed by those of the second, and
    the walk-in counts and the totals of the two batches add up. *)
Theorem X10_validate_batches members visits1 visits2 :
  let r := validate_and_group_visits members (visits1 ++ visits2) in
  let r1 := validate_and_group_visits members visits1 in
  let r2 := validate_and_group_visits members visits2 in
  (forall k, lookup (fst r) k
             = (lookup (fst r1) k ++ lookup (fst r2) k)%list)
  /\ snd r = snd r1 + snd r2
  /\ sum_lengths (fst r) = sum_lengths (fst r1) + sum_lengths (fst r2).
Proof.
  cbv zeta. split; [|split].
  - intros k. now rewrite !validate_lookup, ids_under_app.
  - now rewrite !validate_walk_ins, count_app.
  - now rewrite !validate_sum_lengths, count_app.
Qed.

Lemma validate_fold_all_rejected members visits st :
  (forall v, In v visits -> passed members v = false) ->
  same_result (fold_left (validate_step members) visits st) st.
Proof.
  revert st. induction visits as [|v visits IH]; intros st Hall;
    cbn [fold_left]; [now split|].
  destruct (IH (validate_step members st v)) as [Hg Hw];
    [intros v' Hv'; apply Hall; now right|].
  destruct (validate_step_rejected members st v
              (Hall v (or_introl eq_refl))) as [Hg' Hw'].
  split; congruence.
Qed.

(** X11: when no visit has a non-empty barcode that the mapping sends to a
    non-empty member_id, in particular when the mapping is empty, the
    grouped data are empty and no walk-in is counted, whatever the
    reservation fields are. *)
Theorem X11_nothing_accepted members visits :
  (forall v, In v visits -> passed members v = false) ->
  validate_and_group_visits members visits = ([], 0).
Proof.
  intros Hall. unfold validate_and_group_visits.
  unfold validate_and_group_visits_run.
  destruct (validate_fold_all_rejected members visits (mkVState [] 0 [])
              Hall) as [-> ->].
  reflexivity.
Qed.

Lemma X11_nothing_accepted_witness :
  validate_and_group_visits []
    [mkVisit "v1" "b1" None; mkVisit "v2" "" (Some "r")]
  = ([], 0).
Proof.
  apply X11_nothing_accepted.
  intros v [<-|[<-|[]]]; reflexivity.
Defined.

(** ** More on the aggregator *)

(** The sum of the visit counts of a list of entries. *)
Definition sum_counts (l : list TopMember) : Z :=
  fold_right (fun t acc => visit_count t + acc) 0 l.

Definition sum_values (d : Py.dict string Z) : Z :=
  fold_right (fun kv acc => snd kv + acc) 0 d.

Lemma sum_values_set (d : Py.dict string Z) k v :
  sum_values (Py.set d k v)
  = sum_values d - match Py.get d k with Some c => c | None => 0 end + v.
Proof.
  unfold sum_values.
  induction d as [|[k' v'] d IH]; cbn [Py.set Py.get fold_right snd];
    [lia|].
  destruct (Py.keyb k' k); cbn [fold_right snd]; [|rewrite IH]; lia.
Qed.

Lemma per_member_from_sum g d :
  sum_values (per_member_from g d) = sum_values d + sum_lengths g.
Proof.
  revert d. unfold per_member_from, sum_lengths.
  induction g as [|item g IH]; intros d; cbn [fold_left fold_right]; [lia|].
  rewrite IH, add_visits_set, sum_values_set. unfold GroupKey.
  destruct (Py.get d (fst (fst item))); lia.
Qed.

Lemma per_member_from_nonneg g d :
  Forall (fun kv => 0 <= snd kv) d ->
  Forall (fun kv => 0 <= snd kv) (per_member_from g d).
Proof.
  revert d. unfold per_member_from.
  induction g as [|item g IH]; intros d Hd; cbn [fold_left]; [assumption|].
  apply IH. rewrite add_visits_set. apply Forall_set; [assumption|].
  cbn [snd]. unfold len, GroupKey in *.
  destruct (Py.get d (fst (fst item))) as [c|] eqn:E; [|lia].
  apply get_Some_In in E. rewrite Forall_forall in Hd.
  specialize (Hd _ E). cbn [snd] in Hd. lia.
Qed.

Lemma sum_values_perm (d d' : Py.dict string Z) :
  Permutation d d' -> sum_values d = sum_values d'.
Proof.
  unfold sum_values. induction 1; cbn [fold_right]; lia.
Qed.

Lemma sum_counts_to_top l : sum_counts (map to_top l) = sum_values l.
Proof.
  unfold sum_counts, sum_values.
  induction l as [|x l IH]; cbn [map fold_right]; [reflexivity|].
  now rewrite IH.
Qed.

Lemma ranking_of_sum g : sum_counts (ranking_of g) = sum_lengths g.
Proof.
  unfold ranking_of. rewrite sum_counts_to_top.
  rewrite (sum_values_perm _ (per_member g)) by apply sorted_perm.
  unfold per_member. now rewrite per_member_from_sum.
Qed.

Lemma ranking_of_nonneg g :
  Forall (fun t => 0 <= visit_count t) (ranking_of g).
Proof.
  unfold ranking_of. apply Forall_map.
  assert (Hnn : Forall (fun kv : string * Z => 0 <= snd kv) (per_member g))
    by (apply per_member_from_nonneg; constructor).
  rewrite Forall_forall in Hnn |- *. intros x Hx. cbn [to_top visit_count].
  apply Hnn. eapply Permutation_in; [|exact Hx]. apply sorted_perm.
Qed.

Lemma sum_counts_firstn n l :
  Forall (fun t => 0 <= visit_count t) l ->
  0 <= sum_counts (firstn n l) <= sum_counts l.
Proof.
  intros Hl. revert n. unfold sum_counts.
  induction Hl as [|t l Ht Hl IH]; intros [|n]; cbn [firstn fold_right];
    try lia.
  - specialize (IH 0%nat). cbn [firstn fold_right] in IH. lia.
  - specialize (IH n). lia.
Qed.

Lemma build_summary_top_ranking now g w top_n :
  top_members (build_summary now g w top_n)
  = Py.slice_to top_n (ranking_of g).
Proof.
  rewrite build_summary_top. unfold ranking_of, Py.slice_to.
  rewrite length_map. now destruct (top_n <? 0); rewrite firstn_map.
Qed.

(** The members of the grouped data, each once. *)
Definition distinct_members (g : GroupedVisits) : list string :=
  nodup string_dec (members_of g).

Lemma ranking_of_length g :
  List.length (ranking_of g) = List.length (distinct_members g).
Proof.
  rewrite <- (length_map member_id (ranking_of g)).
  apply Permutation_length, NoDup_Permutation.
  - apply ranking_of_NoDup.
  - apply NoDup_nodup.
  - intros m. unfold distinct_members. rewrite nodup_In, in_map_iff. split.
    + intros ([m' c] & E & Hin). cbn [member_id] in E. subst m'.
      apply In_ranking_of, per_member_spec in Hin. tauto.
    + intros Hin. exists (mkTopMember m (member_total g m)).
      split; [reflexivity|].
      apply In_ranking_of, per_member_spec. now split.
Qed.

(** X12: the visit counts of the top members never add up to more than
    [total_valid_visits], none is negative, and they add up to exactly
    [total_valid_visits] as soon as [top_n] is at least the number of
    distinct members. *)
Theorem X12_top_counts_sum now g w top_n :
  let s := build_summary now g w top_n in
  Forall (fun t => 0 <= visit_count t) (top_members s)
  /\ sum_counts (top_members s) <= total_valid_visits s
  /\ (Z.of_nat (List.length (distinct_members g)) <= top_n ->
      sum_counts (top_members s) = total_valid_visits s).
Proof.
  cbv zeta. rewrite build_summary_total, build_summary_top_ranking.
  rewrite <- ranking_of_sum, <- ranking_of_length.
  pose proof (ranking_of_nonneg g) as Hnn.
  destruct (slice_to_prefix top_n (ranking_of g)) as [n Hn].
  rewrite Hn. split; [|split].
  - rewrite Forall_forall in Hnn |- *. intros t Ht. apply Hnn.
    rewrite <- (firstn_skipn n (ranking_of g)). apply in_or_app. now left.
  - apply sum_counts_firstn, Hnn.
  - intros Hle. rewrite <- Hn, slice_to_nonneg by lia.
    rewrite firstn_all2 by lia. reflexivity.
Qed.

Lemma X12_top_counts_sum_witness :
  let g : GroupedVisits :=
    [(("m1", "b1"), ["v1"; "v2"]); (("m2", "b2"), ["v3"]);
     (("m1", "b9"), ["v4"])] in
  sum_counts (top_members (build_summary "" g 0 2))
  = total_valid_visits (build_summary "" g 0 2).
Proof.
  intros g. apply (X12_top_counts_sum "" g 0 2). vm_compute. discriminate.
Defined.

(** X13: for every [top_n], negative ones included, [print_top_members]
    prints a rule, the title with [top_n], one line per top member of
    [build_summary] in the same order, and a rule. *)
Theorem X13_print_matches_summary now g w top_n :
  print_top_members g top_n
  = ([rule_line; top_header top_n]
     ++ map (fun t => ranking_line (member_id t, visit_count t))
          (top_members (build_summary now g w top_n))
     ++ [rule_line])%list.
Proof.
  rewrite build_summary_top, map_map. reflexivity.
Qed.

(** X15: the number of top members: [top_n] or the number of distinct
    members if that is less, when [top_n] is not negative; for a negative
    [top_n], the number of distinct members less [-top_n], or none. *)
Theorem X15_top_members_length now g w top_n :
  List.length (top_members (build_summary now g w top_n))
  = if top_n <? 0
    then Z.to_nat (Z.of_nat (List.length (distinct_members g)) + top_n)
    else Nat.min (Z.to_nat top_n) (List.length (distinct_members g)).
Proof.
  rewrite build_summary_top_ranking, <- ranking_of_length.
  unfold Py.slice_to.
  destruct (Z.ltb_spec top_n 0); rewrite length_firstn; lia.
Qed.

Lemma StronglySorted_app_cross {A : Type} (R : A -> A -> Prop) l1 l2 :
  StronglySorted R (l1 ++ l2) ->
  forall a b, In a l1 -> In b l2 -> R a b.
Proof.
  induction l1 as [|x l1 IH]; cbn [app]; intros Hs a b Ha Hb;
    [destruct Ha|].
  apply StronglySorted_inv in Hs as [Hs Hall].
  destruct Ha as [<-|Ha].
  - rewrite Forall_forall in Hall. apply Hall, in_or_app. now right.
  - now apply IH.
Qed.

(** X14: a member that is left out of the top members ranks after each of
    them: it has fewer visits, or as many and a greater member_id. So no
    member outside the top has more visits than a member inside. *)
Theorem X14_top_is_best now g w top_n a m :
  In a (top_members (build_summary now g w top_n)) ->
  In m (members_of g) ->
  ~ In m (map member_id (top_members (build_summary now g w top_n))) ->
  ranks_before a (mkTopMember m (member_total g m))
  /\ member_total g m <= visit_count a.
Proof.
  rewrite build_summary_top_ranking.
  destruct (slice_to_prefix top_n (ranking_of g)) as [n ->].
  intros Ha Hm Hout.
  assert (Hb : In (mkTopMember m (member_total g m)) (ranking_of g))
    by (apply In_ranking_of, per_member_spec; now split).
  rewrite <- (firstn_skipn n (ranking_of g)) in Hb.
  apply in_app_or in Hb as [Hb|Hb].
  - exfalso. apply Hout.
    change m with (member_id (mkTopMember m (member_total g m))).
    now apply in_map.
  - pose proof (ranking_of_sorted g) as Hs.
    rewrite <- (firstn_skipn n (ranking_of g)) in Hs.
    pose proof (StronglySorted_app_cross _ _ _ Hs a _ Ha Hb) as Hr.
    split; [exact Hr|].
    destruct Hr as [Hr|[Hr _]]; cbn [visit_count] in Hr; lia.
Qed.

Lemma X14_top_is_best_witness :
  member_total
    [(("m1", "b1"), ["v1"; "v2"]); (("m2", "b2"), ["v3"]);
     (("m3", "b3"), ["v4"; "v5"; "v6"])] "m2"
  <= 2.
Proof.
  apply (X14_top_is_best ""
           [(("m1", "b1"), ["v1"; "v2"]); (("m2", "b2"), ["v3"]);
            (("m3", "b3"), ["v4"; "v5"; "v6"])] 0 2
           (mkTopMember "m1" 2) "m2").
  - right. now left.
  - right. now left.
  - cbn. intros [H|[H|[]]]; discriminate.
Defined.

(** ** The run of [processor.py] *)

(** [print_total_walk_ins]: the lines printed. *)
Definition print_total_walk_ins (walk_in_count : Z) : list string :=
  [rule_line; "Total walk-ins: " ++ Py.str_of_int walk_in_count; rule_line].

(** What a run leaves behind: the report, the summary handed to
    [write_summary], the warnings logged, the lines printed and the value
    returned. *)
Record RunResult : Type := mkRunResult {
  output_csv : string;
  summary_json : Summary;
  warnings : Log;
  printed : list string;
  exit_code : Z
}.

(** [main], the two files being called [members_name] and [visits_name]
    and read as [member_rows] and [visit_rows], at time [now]. *)
Definition main (members_name visits_name : string)
    (member_rows visit_rows : list Row) (now : string) : Res RunResult :=
  ml <- load_members_run members_name member_rows ;;
  let members := fst ml in
  let vl := load_visits_run visits_name visit_rows in
  let visits := fst vl in
  let st := validate_and_group_visits_run members visits in
  let grouped_data := grouped st in
  let walk_in_count := walk_in_count st in
  out <- write_output grouped_data ;;
  let summary := build_summary now grouped_data walk_in_count 5 in
  Ok (mkRunResult out summary
        (snd ml ++ snd vl ++ vlog st)%list
        (print_top_members grouped_data 5
         ++ print_total_walk_ins walk_in_count)%list
        0).

Lemma main_unfold members_name visits_name member_rows visit_rows now :
  let members := members_fold member_rows [] in
  let visits := load_visits visits_name visit_rows in
  let st := validate_and_group_visits_run members visits in
  main members_name visits_name member_rows visit_rows now
  = Ok (mkRunResult
          (("member_id,barcode,visits" ++ String "010" "")
           ++ concat_all (map row_line (sorted_items (grouped st))))
          (build_summary now (grouped st) (walk_in_count st) 5)
          (members_log members_name 2 member_rows []
           ++ visits_log visits_name 2 visit_rows ++ vlog st)%list
          (print_top_members (grouped st) 5
           ++ print_total_walk_ins (walk_in_count st))%list
          0).
Proof.
  cbv zeta. unfold main, load_members_run.
  rewrite load_members_loop_log. cbn [bind fst snd app].
  rewrite write_output_rows. cbn [bind].
  assert (Hsnd : snd (load_visits_run visits_name visit_rows)
                 = visits_log visits_name 2 visit_rows)
    by (unfold load_visits_run; now rewrite load_visits_loop_snd).
  rewrite Hsnd. reflexivity.
Qed.

(** X16: a run of [main] raises no KeyError and returns 0; in its summary
    the walk-ins are at most the valid visits, which are at most the rows
    of visits.csv, and at most five members are listed; every row of the
    two files is accounted for once, as an entry of the mapping, as a
    valid visit or by a warning. *)
Theorem X16_main_run members_name visits_name member_rows visit_rows now :
  exists r members,
    main members_name visits_name member_rows visit_rows now = Ok r
    /\ load_members members_name member_rows = Ok members
    /\ exit_code r = 0
    /\ 0 <= total_walk_ins (summary_json r)
       <= total_valid_visits (summary_json r)
    /\ total_valid_visits (summary_json r)
       <= Z.of_nat (List.length visit_rows)
    /\ (List.length (top_members (summary_json r)) <= 5)%nat
    /\ Z.of_nat (List.length members)
       + total_valid_visits (summary_json r)
       + Z.of_nat (List.length (warnings r))
       = Z.of_nat (List.length member_rows + List.length visit_rows).
Proof.
  eexists. exists (members_fold member_rows []).
  split; [apply main_unfold|]. cbv zeta.
  cbn [exit_code summary_json warnings].
  set (members := members_fold member_rows []).
  set (visits := load_visits visits_name visit_rows).
  set (st := validate_and_group_visits_run members visits).
  split; [apply load_members_fold|]. split; [reflexivity|].
  rewrite build_summary_total.
  assert (Hw : total_walk_ins
                 (build_summary now (grouped st) (walk_in_count st) 5)
               = walk_in_count st).
  { unfold build_summary. now destruct (fold_left _ _ _). }
  rewrite Hw.
  pose proof (Hwalk := validate_walk_ins members visits).
  pose proof (Hs := validate_sum_lengths members visits).
  unfold validate_and_group_visits in Hwalk, Hs.
  cbn [fst snd] in Hwalk, Hs. fold st in Hwalk, Hs.
  pose proof (Hvlog := validate_fold_log members visits (mkVState [] 0 [])).
  fold (validate_and_group_visits_run members visits) in Hvlog.
  fold st in Hvlog. cbn [vlog app] in Hvlog.
  pose proof (Hsplit := filter_length_split (passed members) visits).
  pose proof (Hacc := members_accounting members_name member_rows 2 []).
  fold members in Hacc. cbn [List.length] in Hacc.
  destruct (visits_log_ok visits_name visit_rows 2) as [_ Hvl].
  assert (Hlen : List.length visits
                 = List.length (filter has_visit_id visit_rows)).
  { unfold visits. now rewrite load_visits_map, length_map. }
  split; [|split; [|split]].
  - rewrite Hwalk, Hs. split; [apply count_nonneg|].
    apply count_le. intros v Hv. now apply andb_prop in Hv.
  - rewrite Hs. unfold count. lia.
  - rewrite build_summary_top_ranking, slice_to_nonneg by lia.
    rewrite length_firstn. change (Z.to_nat 5) with 5%nat. lia.
  - rewrite Hs, Hvlog, !length_app, length_map. unfold count. lia.
Qed.

(** X17: with the mapping that [load_members] returns, the total of valid
    visits is the number of visits whose barcode is non-empty and a key of
    the mapping: no barcode of such a mapping has an empty member_id. *)
Theorem X17_pipeline_total name rows now top_n :
  exists members,
    load_members name rows = Ok members
    /\ (forall visits,
          let r := validate_and_group_visits members visits in
          total_valid_visits (build_summary now (fst r) (snd r) top_n)
          = count (known members) visits)
    /\ (forall v, passed members v = known members v).
Proof.
  exists (members_fold rows []). split; [apply load_members_fold|].
  assert (Hne : Forall (fun kv : string * string => snd kv <> "")
                  (members_fold rows [])).
  { destruct (members_fold_wf rows [] (NoDup_nil _) (Forall_nil _))
      as [_ Hall].
    eapply Forall_impl; [|exact Hall]. now intros kv [_ H]. }
  split.
  - intros visits. cbv zeta.
    rewrite build_summary_total, validate_sum_lengths.
    apply count_ext. intros v. now apply passed_known.
  - intros v. now apply passed_known.
Qed.

(** A string that is not empty and is left as it is by [strip]. *)
Definition trimmed (s : string) : Prop := s <> "" /\ Py.strip s = s.

Lemma load_visits_ids_trimmed name rows :
  Forall (fun v => trimmed (visit_id v)) (load_visits name rows).
Proof.
  rewrite load_visits_map. apply Forall_map, Forall_forall.
  intros row Hin. apply filter_In in Hin as [_ Hk].
  cbn [visit_of_row visit_id]. split; [|apply strip_idem].
  unfold has_visit_id in Hk. apply negb_true_iff in Hk.
  now apply String.eqb_neq in Hk.
Qed.

Lemma ids_under_In members k visits id :
  In id (ids_under members k visits) ->
  exists v, In v visits /\ visit_id v = id.
Proof.
  unfold ids_under. rewrite in_map_iff.
  intros (v & E & Hin). apply filter_In in Hin as [Hin _]. now exists v.
Qed.

(** X18: in a run, every row of the report has a member_id and a barcode
    that are non-empty and trimmed, and lists at least one visit id, each
    non-empty and trimmed: there is no row with an empty list. *)
Theorem X18_pipeline_report mname vname mrows vrows :
  exists members rows,
    load_members mname mrows = Ok members
    /\ write_output
         (fst (validate_and_group_visits members (load_visits vname vrows)))
       = Ok (("member_id,barcode,visits" ++ String "010" "")
             ++ concat_all (map row_line rows))
    /\ Forall
         (fun item =>
            trimmed (fst (fst item)) /\ trimmed (snd (fst item))
            /\ snd item <> [] /\ Forall trimmed (snd item))
         rows.
Proof.
  set (members := members_fold mrows []).
  set (visits := load_visits vname vrows).
  set (g := fst (validate_and_group_visits members visits)).
  exists members, (sorted_items g).
  split; [apply load_members_fold|]. split; [apply write_output_rows|].
  assert (Hwf : Py.wf g) by apply validate_grouped_wf.
  assert (Hmem : Forall (fun kv : string * string =>
                           trimmed (fst kv) /\ trimmed (snd kv)) members).
  { apply members_fold_Forall; [|constructor].
    intros row Hv. cbn [fst snd]. unfold valid_member_row in Hv.
    apply andb_prop in Hv as [Hm Hb]. unfold trimmed.
    repeat split; try apply strip_idem.
    - intros E. rewrite E in Hb. discriminate.
    - intros E. rewrite E in Hm. discriminate. }
  rewrite Forall_forall. intros [[m b] l] Hin.
  apply (Permutation_in _ (sorted_items_permutation g Hwf)) in Hin.
  cbn [fst snd].
  assert (Hk : In (m, b) (Py.keys g))
    by (apply (in_map fst) in Hin; exact Hin).
  destruct (validate_key_facts members visits m b Hk) as (_ & _ & Hget).
  apply get_Some_In in Hget. rewrite Forall_forall in Hmem.
  destruct (Hmem _ Hget) as [Hb Hm]. cbn [fst snd] in Hb, Hm.
  split; [exact Hm|]. split; [exact Hb|].
  pose proof (In_get g (m, b) l Hwf Hin) as Hl.
  assert (Hlook : l = ids_under members (m, b) visits).
  { rewrite <- validate_lookup. fold g. unfold lookup. now rewrite Hl. }
  split.
  - pose proof (validate_fold_nonempty members visits (mkVState [] 0 [])
                  (Forall_nil _)) as Hne.
    rewrite Forall_forall in Hne. exact (Hne _ Hin).
  - rewrite Forall_forall. intros id Hid. rewrite Hlook in Hid.
    apply ids_under_In in Hid as (v & Hv & <-).
    pose proof (load_visits_ids_trimmed vname vrows) as Hids.
    rewrite Forall_forall in Hids. now apply Hids.
Qed.

Lemma count_map_filter {A B : Type} (f : A -> B) (q : A -> bool)
    (p : B -> bool) l :
  count p (map f (filter q l)) = count (fun x => q x && p (f x)) l.
Proof.
  unfold count. induction l as [|x l IH]; [reflexivity|].
  cbn [filter]. destruct (q x); cbn [map filter andb].
  - destruct (p (f x)); cbn [List.length]; lia.
  - exact IH.
Qed.

(** The trimmed barcode of the row is not empty and is a key of the
    mapping. *)
Definition row_known (members : Members) (row : Row) : bool :=
  Py.truthy (Py.strip (field row "barcode"))
  && Py.mem members (Py.strip (field row "barcode")).

(** X19: the two numbers of the summary of a run, read on the rows of
    visits.csv: the valid visits are the rows with a visit_id that is not
    blank and a trimmed barcode that is not empty and is a key of the
    loaded mapping; the walk-ins are those of them whose reservation_id is
    missing or blank. *)
Theorem X19_summary_of_rows members_name visits_name member_rows visit_rows
    now :
  exists r members,
    main members_name visits_name member_rows visit_rows now = Ok r
    /\ load_members members_name member_rows = Ok members
    /\ total_valid_visits (summary_json r)
       = count (fun row => has_visit_id row && row_known members row)
           visit_rows
    /\ total_walk_ins (summary_json r)
       = count
           (fun row =>
              has_visit_id row
              && (row_known members row
                  && Py.blank (field row "reservation_id")))
           visit_rows.
Proof.
  eexists. exists (members_fold member_rows []).
  split; [apply main_unfold|]. cbv zeta. cbn [summary_json].
  set (members := members_fold member_rows []).
  split; [apply load_members_fold|].
  assert (Hne : Forall (fun kv : string * string => snd kv <> "") members).
  { destruct (members_fold_wf member_rows [] (NoDup_nil _) (Forall_nil _))
      as [_ Hall].
    eapply Forall_impl; [|exact Hall]. now intros kv [_ H]. }
  assert (Hw : forall g w,
             total_walk_ins (build_summary now g w 5) = w).
  { intros g w. unfold build_summary. now destruct (fold_left _ _ _). }
  rewrite build_summary_total, Hw.
  pose proof (validate_sum_lengths members
                (load_visits visits_name visit_rows)) as Hs.
  pose proof (validate_walk_ins members
                (load_visits visits_name visit_rows)) as Hwalk.
  unfold validate_and_group_visits in Hs, Hwalk. cbn [fst snd] in Hs, Hwalk.
  rewrite Hs, Hwalk, load_visits_map, !count_map_filter.
  split; apply count_ext; intros row; f_equal;
    rewrite (passed_known members _ Hne); [reflexivity|].
  unfold row_known, known, is_walk_in, visit_of_row.
  cbn [barcode reservation_id]. f_equal.
  unfold Py.or_None. rewrite truthy_strip.
  now destruct (Py.blank _).
Qed.
